(** * assetjet: sandbox/database.py

    A shallow embedding of the price loader of [sandbox/database.py]
    (Python 2): the Yahoo CSV fetcher and parser [get_yahoo_prices], the
    SQLite store [create_db] / [save_to_db], and the symbol-file branch of
    [populate_db], together with the properties the specification states
    about them.

    Conventions of the embedding.
    - A Python [str] is a [string] (a sequence of bytes).
    - A Python [int] is a [Z]; a [float] is a binary64 [PrimFloat.float].
    - A raised exception is the [Raise] case of [result].
    - The file system is a finite map from paths to database files; the
      [sqlite3] connection objects live in a table of the [world], so that
      the statements of the source read as they are written. *)

From Stdlib Require Import ZArith Lia Ascii.
From Stdlib Require Import Floats.PrimFloat.
From stdpp Require Import base option list strings gmap pretty.

Local Open Scope Z_scope.

(** ** Exceptions *)

Inductive exn : Set :=
  | IOError
  | ValueError
  | TypeError
  | IndexError
  | OverflowError
  | OperationalError
  | IntegrityError
  | ProgrammingError.

#[global] Instance exn_eq_dec : EqDecision exn.
Proof. solve_decision. Defined.

Inductive result (A : Type) : Type :=
  | Ok (a : A)
  | Raise (e : exn).
Arguments Ok {A} a.
Arguments Raise {A} e.

Definition rbind {A B} (r : result A) (k : A -> result B) : result B :=
  match r with
  | Ok a => k a
  | Raise e => Raise e
  end.

Declare Scope result_scope.
Delimit Scope result_scope with result.
Notation "x <- r ;; k" := (rbind r (fun x => k))
  (at level 100, r at next level, right associativity) : result_scope.

(** [None] of a library function that reports failure by [ValueError]. *)
Definition or_ValueError {A} (o : option A) : result A :=
  match o with
  | Some a => Ok a
  | None => Raise ValueError
  end.

(** ** Python strings *)

Module Str.

(** [s.lstrip()], [s.rstrip()], [s.strip()] with no argument: the bytes
    removed are the six ASCII whitespace characters. *)
Fixpoint lstrip (s : string) : string :=
  match s with
  | EmptyString => EmptyString
  | String c s' => if Ascii.is_space c then lstrip s' else s
  end.

Fixpoint rstrip (s : string) : string :=
  match s with
  | EmptyString => EmptyString
  | String c s' =>
      match rstrip s' with
      | EmptyString => if Ascii.is_space c then EmptyString
                       else String c EmptyString
      | r => String c r
      end
  end.

Definition strip (s : string) : string := rstrip (lstrip s).

(** [s.split(sep)] for a one-character separator: one more piece than
    there are separators, empty pieces kept. *)
Fixpoint split (sep : ascii) (s : string) : list string :=
  match s with
  | EmptyString => [EmptyString]
  | String c s' =>
      if Ascii.eqb c sep then EmptyString :: split sep s'
      else match split sep s' with
           | w :: ws => String c w :: ws
           | [] => [String c EmptyString]
           end
  end.

(** [s.replace(old, new)] for one-character [old] and [new]. *)
Fixpoint replace (old new : ascii) (s : string) : string :=
  match s with
  | EmptyString => EmptyString
  | String c s' =>
      String (if Ascii.eqb c old then new else c) (replace old new s')
  end.

(** The string with [f] applied to each character. *)
Fixpoint map (f : ascii -> ascii) (s : string) : string :=
  match s with
  | EmptyString => EmptyString
  | String c s' => String (f c) (map f s')
  end.

(** Are all characters of [s] whitespace? *)
Fixpoint all_space (s : string) : bool :=
  match s with
  | EmptyString => true
  | String c s' => Ascii.is_space c && all_space s'
  end.

(** [c in s] for a character. *)
Fixpoint contains (c : ascii) (s : string) : bool :=
  match s with
  | EmptyString => false
  | String c' s' => Ascii.eqb c' c || contains c s'
  end.

(** [s[:n]] *)
Fixpoint take (n : nat) (s : string) : string :=
  match n, s with
  | S n', String c s' => String c (take n' s')
  | _, _ => EmptyString
  end.

(** Trailing NUL bytes, which a fixed-width numpy string field pads with
    and drops again when the item is read. *)
Fixpoint rstrip_nul (s : string) : string :=
  match s with
  | EmptyString => EmptyString
  | String c s' =>
      match rstrip_nul s' with
      | EmptyString => if Ascii.eqb c "000"%char then EmptyString
                       else String c EmptyString
      | r => String c r
      end
  end.

End Str.

(** ** String formatting: [fmt % args] with the [%s] and [%d] directives *)

Inductive fmt_arg : Type :=
  | ArgS (s : string)
  | ArgD (n : Z).

Fixpoint format (fmt : string) (args : list fmt_arg) : result string :=
  match fmt with
  | EmptyString =>
      match args with
      | [] => Ok EmptyString
      | _ :: _ => Raise TypeError
      end
  | String "%" (String "s" rest) =>
      match args with
      | ArgS s :: args' =>
          match format rest args' with
          | Ok r => Ok (s +:+ r)
          | Raise e => Raise e
          end
      | ArgD n :: args' =>
          match format rest args' with
          | Ok r => Ok (pretty n +:+ r)
          | Raise e => Raise e
          end
      | [] => Raise TypeError
      end
  | String "%" (String "d" rest) =>
      match args with
      | ArgD n :: args' =>
          match format rest args' with
          | Ok r => Ok (pretty n +:+ r)
          | Raise e => Raise e
          end
      | ArgS _ :: _ => Raise TypeError
      | [] => Raise TypeError
      end
  | String c rest =>
      match format rest args with
      | Ok r => Ok (String c r)
      | Raise e => Raise e
      end
  end.

(** ** The [datetime] module: calendar dates and day arithmetic

    The proleptic Gregorian calendar as [datetime.date] implements it: a
    date is converted to its ordinal (0001-01-01 is day 1), days are
    subtracted there, and the result converted back. *)

Module datetime.

Record date : Set := mkdate { year : Z; month : Z; day : Z }.

Definition MINYEAR : Z := 1.
Definition MAXYEAR : Z := 9999.
Definition MAXORDINAL : Z := 3652059.

Definition is_leap (y : Z) : bool :=
  (y mod 4 =? 0) && (negb (y mod 100 =? 0) || (y mod 400 =? 0)).

Definition days_before_year (y : Z) : Z :=
  let y := y - 1 in y * 365 + y / 4 - y / 100 + y / 400.

Definition DAYS_IN_MONTH (m : Z) : Z :=
  match m with
  | 1 => 31 | 2 => 28 | 3 => 31 | 4 => 30 | 5 => 31 | 6 => 30
  | 7 => 31 | 8 => 31 | 9 => 30 | 10 => 31 | 11 => 30 | 12 => 31
  | _ => -1
  end.

Definition DAYS_BEFORE_MONTH (m : Z) : Z :=
  match m with
  | 1 => 0 | 2 => 31 | 3 => 59 | 4 => 90 | 5 => 120 | 6 => 151
  | 7 => 181 | 8 => 212 | 9 => 243 | 10 => 273 | 11 => 304 | 12 => 334
  | _ => -1
  end.

Definition days_in_month (y m : Z) : Z :=
  if (m =? 2) && is_leap y then 29 else DAYS_IN_MONTH m.

Definition days_before_month (y m : Z) : Z :=
  DAYS_BEFORE_MONTH m + (if (2 <? m) && is_leap y then 1 else 0).

Definition ymd2ord (y m d : Z) : Z :=
  days_before_year y + days_before_month y m + d.

Definition DI400Y : Z := 146097.
Definition DI100Y : Z := 36524.
Definition DI4Y : Z := 1461.

(** The month and day of the [n]-th day (from 0) of a year. *)
Definition month_day (leapyear : bool) (n : Z) : Z * Z :=
  let m := Z.shiftr (n + 50) 5 in
  let preceding :=
    DAYS_BEFORE_MONTH m + (if (2 <? m) && leapyear then 1 else 0) in
  if n <? preceding then
    let m := m - 1 in
    let preceding :=
      preceding
      - (DAYS_IN_MONTH m + (if (m =? 2) && leapyear then 1 else 0)) in
    (m, n - preceding + 1)
  else (m, n - preceding + 1).

Definition ord2ymd (n : Z) : date :=
  let n := n - 1 in
  let n400 := n / DI400Y in
  let n := n mod DI400Y in
  let y := n400 * 400 + 1 in
  let n100 := n / DI100Y in
  let n := n mod DI100Y in
  let n4 := n / DI4Y in
  let n := n mod DI4Y in
  let n1 := n / 365 in
  let n := n mod 365 in
  let y := y + n100 * 100 + n4 * 4 + n1 in
  if (n1 =? 4) || (n100 =? 4) then mkdate (y - 1) 12 31
  else
    let leapyear := (n1 =? 3) && (negb (n4 =? 24) || (n100 =? 3)) in
    let '(m, d) := month_day leapyear n in
    mkdate y m d.

Definition toordinal (d : date) : Z := ymd2ord (year d) (month d) (day d).
Definition fromordinal (n : Z) : date := ord2ymd n.

(** The checks of the constructor [datetime.date(year, month, day)]. *)
Definition valid (d : date) : bool :=
  (MINYEAR <=? year d) && (year d <=? MAXYEAR)
  && (1 <=? month d) && (month d <=? 12)
  && (1 <=? day d) && (day d <=? days_in_month (year d) (month d)).

Definition new (ymd : Z * Z * Z) : result date :=
  let '(y, m, d) := ymd in
  if valid (mkdate y m d) then Ok (mkdate y m d) else Raise ValueError.

(** [d - datetime.timedelta(days)] *)
Definition sub_days (d : date) (days : Z) : result date :=
  let o := toordinal d - days in
  if (0 <? o) && (o <=? MAXORDINAL) then Ok (fromordinal o)
  else Raise OverflowError.

Definition eqb (a b : date) : bool :=
  (year a =? year b) && (month a =? month b) && (day a =? day b).

End datetime.

#[global] Instance date_eq_dec : EqDecision datetime.date.
Proof. solve_decision. Defined.

(** ** Price records

    The numpy [schema] of the source: a fixed-width 8-byte string, a day
    [datetime64] and six floats. *)

(** A value of the ['M8[D]'] field: a day, or [None] for NaT
    ("not a time"), which the empty string and ["NaT"] convert to. *)
Definition datetime64 : Set := option datetime.date.

Module schema.
Record row : Set := mkrow {
  symbol : string;
  date : datetime64;
  open : float;
  high : float;
  low : float;
  close : float;
  volume : float;
  adjclose : float
}.
End schema.

Abbreviation PriceRecord := schema.row.
Abbreviation mkPriceRecord := schema.mkrow.

(** A tuple as the parsing loop appends it, fields not yet converted. *)
Definition raw_tuple : Set :=
  (string * string * float * float * float * float * float * float)%type.

(** Storing a [str] into an ['S8'] field keeps its first 8 bytes. *)
Definition S8 (s : string) : string := Str.rstrip_nul (Str.take 8 s).

Fixpoint rmapM {A B} (f : A -> result B) (l : list A) : result (list B) :=
  match l with
  | [] => Ok []
  | x :: l' =>
      match f x with
      | Ok y =>
          match rmapM f l' with
          | Ok ys => Ok (y :: ys)
          | Raise e => Raise e
          end
      | Raise e => Raise e
      end
  end.

(** ** The fetcher and parser: [get_yahoo_prices] *)

Section Fetcher.

(** What the function takes from its environment: the builtin [float],
    numpy's conversion of a string to a day [datetime64] ([None] when it
    raises [ValueError], [Some None] when it gives NaT),
    [datetime.datetime.strptime], the first three fields of
    [time.localtime()], and [urlopen(url).readlines()]. *)
Variable py_float : string -> option float.
Variable np_datetime64 : string -> option datetime64.
Variable strptime : string -> string -> option datetime.date.
Variable localtime : Z * Z * Z.
Variable urlopen : string -> result (list string).

(** Lines 71-74: the tuple the URL template is applied to. *)
Definition url_args (symbol : string) (startdate enddate : datetime.date)
    (period : string) : list fmt_arg :=
  [ ArgS symbol;
    ArgD (datetime.month startdate - 1); ArgD (datetime.day startdate);
    ArgD (datetime.year startdate);
    ArgD (datetime.month enddate - 1); ArgD (datetime.day enddate);
    ArgD (datetime.year enddate);
    ArgS period ].

Definition url_template : string :=
  "http://ichart.finance.yahoo.com/table.csv?s=%s&a=%d&b=%d&c=%d&"
  +:+ "d=%d&e=%d&f=%d&y=0&g=%s&ignore=.csv".

Definition request_url (symbol : string) (startdate enddate : datetime.date)
    (period : string) : result string :=
  format url_template (url_args symbol startdate enddate period).

(** [items[1:7]] *)
Definition slice_1_7 (items : list string) : list string :=
  take 6 (drop 1 items).

(** Line 83: [line.strip().split(',')] *)
Definition items_of (line : string) : list string :=
  Str.split ","%char (Str.strip line).

(** Lines 81-91: the loop over [lines[1:]], [data] being the list built
    so far. *)
Fixpoint parse_lines (symbol : string) (lines : list string)
    (data : list raw_tuple) : result (list raw_tuple) :=
  match lines with
  | [] => Ok data
  | line :: rest =>
      let items := items_of line in
      if negb (length items =? 7)%nat then parse_lines symbol rest data
      else
        let dt := nth 0 items EmptyString in
        match rmapM (fun x => or_ValueError (py_float x))
                    (slice_1_7 items) with
        | Ok [opn; high; low; close; volume; adjclose] =>
            parse_lines symbol rest
              (data ++ [(symbol, dt, opn, high, low, close, volume,
                         adjclose)])
        | Ok _ => Raise ValueError
        | Raise e => Raise e
        end
  end.

(** Line 93: [np.array(data, dtype=schema)], element by element. *)
Definition to_schema (t : raw_tuple) : result PriceRecord :=
  let '(symbol, dt, opn, high, low, close, volume, adjclose) := t in
  match np_datetime64 dt with
  | Some d => Ok (mkPriceRecord (S8 symbol) d opn high low close volume
                                adjclose)
  | None => Raise ValueError
  end.

Definition np_array (data : list raw_tuple) : result (list PriceRecord) :=
  rmapM to_schema data.

(** What one line contributes: the test of line 85, and the body of the
    loop followed by the conversion of line 93 for that line alone. *)
Definition seven_fields (line : string) : bool :=
  (length (items_of line) =? 7)%nat.

Definition line_record (symbol line : string) : result PriceRecord :=
  let items := items_of line in
  match rmapM (fun x => or_ValueError (py_float x)) (slice_1_7 items) with
  | Ok [opn; high; low; close; volume; adjclose] =>
      to_schema (symbol, nth 0 items EmptyString, opn, high, low, close,
                 volume, adjclose)
  | Ok _ => Raise ValueError
  | Raise e => Raise e
  end.

(** Lines 79-95: the parser, from the lines of the answer to the
    record array. *)
Definition parse_response (symbol : string) (lines : list string)
    : result (list PriceRecord) :=
  (data <- parse_lines symbol (drop 1 lines) [] ;;
   np_array data)%result.

(** Lines 70-95: the request and the parsing of its answer, the two
    dates being resolved. *)
Definition fetch_and_parse (symbol : string)
    (startdate enddate : datetime.date) (period : string)
    : result (list PriceRecord) :=
  (url <- request_url symbol startdate enddate period ;;
   lines <- urlopen url ;;
   parse_response symbol lines)%result.

(** Lines 56-68: the dates of the request. *)
Definition resolve_date (given : option string) (datefmt : string)
    (default : datetime.date) : result datetime.date :=
  match given with
  | None => Ok default
  | Some s => or_ValueError (strptime s datefmt)
  end.

Definition get_yahoo_prices (symbol : string)
    (startdate enddate : option string) (period datefmt : string)
    : result (list PriceRecord) :=
  (todaydate <- datetime.new localtime ;;
   yesterdate <- datetime.sub_days todaydate 1 ;;
   lastyeardate <- datetime.sub_days todaydate 365 ;;
   startdate <- resolve_date startdate datefmt lastyeardate ;;
   enddate <- resolve_date enddate datefmt yesterdate ;;
   fetch_and_parse symbol startdate enddate period)%result.

End Fetcher.

(** ** The storage engine: the part of SQLite the source uses

    A database file is a catalogue of tables and unique indexes. The
    three statement forms of the source are [CREATE TABLE],
    [CREATE UNIQUE INDEX] and [INSERT INTO t (cols) VALUES (?, ...)]. *)

Module sqlite3.

(** A stored value. [DATE d] stands for the ISO-8601 text that the
    module's default adapter stores for a [datetime.date]. Values of
    different storage classes are taken as distinct, and [NULL] is
    distinct from every value, itself included, as a unique index has
    it. *)
Inductive value : Set :=
  | NULL
  | INTEGER (z : Z)
  | REAL (f : float)
  | TEXT (s : string)
  | DATE (d : datetime.date).

Definition value_eqb (a b : value) : bool :=
  match a, b with
  | INTEGER x, INTEGER y => (x =? y)
  | REAL x, REAL y => PrimFloat.eqb x y
  | TEXT x, TEXT y => String.eqb x y
  | DATE x, DATE y => datetime.eqb x y
  | _, _ => false
  end.

Record table : Set := mktable {
  columns : list (string * string);   (* name, declared type *)
  rows : list (list value)
}.

Record index : Set := mkindex {
  on_table : string;
  on_columns : list string
}.

Record database : Set := mkdatabase {
  tables : list (string * table);
  indexes : list (string * index)     (* the unique indexes *)
}.

Definition empty_database : database := mkdatabase [] [].

Inductive statement : Set :=
  | CREATE_TABLE (name : string) (cols : list (string * string))
  | CREATE_UNIQUE_INDEX (name tbl : string) (cols : list string)
  | INSERT_INTO (tbl : string) (cols : list string).

Fixpoint assoc {A} (k : string) (l : list (string * A)) : option A :=
  match l with
  | [] => None
  | (k', a) :: l' => if String.eqb k' k then Some a else assoc k l'
  end.

Fixpoint assoc_set {A} (k : string) (a : A) (l : list (string * A))
    : list (string * A) :=
  match l with
  | [] => []
  | (k', a') :: l' =>
      if String.eqb k' k then (k', a) :: l'
      else (k', a') :: assoc_set k a l'
  end.

Fixpoint index_of (c : string) (cols : list string) : option nat :=
  match cols with
  | [] => None
  | c' :: cols' =>
      if String.eqb c' c then Some O else S <$> index_of c cols'
  end.

Definition has_column (t : table) (c : string) : bool :=
  bool_decide (is_Some (index_of c (columns t).*1)).

(** The value of column [c] of a row laid out as [cols]. *)
Definition field (cols : list string) (row : list value) (c : string)
    : value :=
  match index_of c cols with
  | Some i => nth i row NULL
  | None => NULL
  end.

(** The row an [INSERT] stores: columns not named get [NULL]. *)
Definition bind_row (t : table) (cols : list string) (params : list value)
    : list value :=
  map (field cols params) (columns t).*1.

(** The key of a row under an index. *)
Definition key_of (t : table) (ix : index) (row : list value)
    : list value :=
  map (field (columns t).*1 row) (on_columns ix).

Fixpoint key_eqb (k1 k2 : list value) : bool :=
  match k1, k2 with
  | [], [] => true
  | a :: k1', b :: k2' => value_eqb a b && key_eqb k1' k2'
  | _, _ => false
  end.

(** Does [row] collide with a stored row under index [ix]? *)
Definition collides (t : table) (ix : index) (row : list value) : bool :=
  existsb (fun old => key_eqb (key_of t ix old) (key_of t ix row))
          (rows t).

Definition violates_unique (db : database) (tbl : string) (t : table)
    (row : list value) : bool :=
  existsb (fun '(_, ix) => String.eqb (on_table ix) tbl && collides t ix row)
          (indexes db).

Fixpoint has_duplicate_key (t : table) (ix : index)
    (rs : list (list value)) : bool :=
  match rs with
  | [] => false
  | r :: rs' =>
      existsb (fun r' => key_eqb (key_of t ix r) (key_of t ix r')) rs'
      || has_duplicate_key t ix rs'
  end.

Definition name_taken (db : database) (name : string) : bool :=
  bool_decide (is_Some (assoc name (tables db)))
  || bool_decide (is_Some (assoc name (indexes db))).

(** One statement against a database: the new database, or the error
    with the database as it was (a failed statement changes nothing). *)
Definition exec (db : database) (stmt : statement) (params : list value)
    : result database :=
  match stmt with
  | CREATE_TABLE name cols =>
      if name_taken db name then Raise OperationalError
      else Ok (mkdatabase (tables db ++ [(name, mktable cols [])])
                          (indexes db))
  | CREATE_UNIQUE_INDEX name tbl cols =>
      if name_taken db name then Raise OperationalError
      else match assoc tbl (tables db) with
           | None => Raise OperationalError
           | Some t =>
               if negb (forallb (has_column t) cols)
               then Raise OperationalError
               else if has_duplicate_key t (mkindex tbl cols) (rows t)
               then Raise IntegrityError
               else Ok (mkdatabase (tables db)
                          (indexes db ++ [(name, mkindex tbl cols)]))
           end
  | INSERT_INTO tbl cols =>
      match assoc tbl (tables db) with
      | None => Raise OperationalError
      | Some t =>
          if negb (forallb (has_column t) cols) then Raise OperationalError
          else if negb (length params =? length cols)%nat
          then Raise ProgrammingError
          else
            let row := bind_row t cols params in
            if violates_unique db tbl t row then Raise IntegrityError
            else Ok (mkdatabase
                       (assoc_set tbl (mktable (columns t) (rows t ++ [row]))
                                  (tables db))
                       (indexes db))
      end
  end.

(** Compiling a statement, before any row is bound to it: an [INSERT]
    into a table or a column that is not there does not compile. *)
Definition prepare (db : database) (stmt : statement) : result unit :=
  match stmt with
  | INSERT_INTO tbl cols =>
      match assoc tbl (tables db) with
      | None => Raise OperationalError
      | Some t =>
          if negb (forallb (has_column t) cols) then Raise OperationalError
          else Ok tt
      end
  | _ => Ok tt
  end.

Definition is_dml (stmt : statement) : bool :=
  match stmt with
  | INSERT_INTO _ _ => true
  | _ => false
  end.

(** A connection object. [transaction] is the database as the open
    transaction sees it, [None] when no transaction is open;
    [total_changes] counts the rows inserted since [connect]. *)
Record connection : Set := mkconnection {
  database_file : string;
  transaction : option database;
  total_changes : nat;
  closed : bool
}.

End sqlite3.

Import sqlite3.

(** ** The world: files and open connections *)

Record world : Type := mkworld {
  files : gmap string database;
  connections : list connection
}.

(** A computation may change the world and then return or raise; what it
    changed before raising stays changed. *)
Definition M (A : Type) : Type := world -> result A * world.

Definition ret {A} (a : A) : M A := fun w => (Ok a, w).
Definition raise {A} (e : exn) : M A := fun w => (Raise e, w).
Definition bind {A B} (m : M A) (k : A -> M B) : M B :=
  fun w => match m w with
           | (Ok a, w') => k a w'
           | (Raise e, w') => (Raise e, w')
           end.

(** [try: m except e: handler] *)
Definition try_except {A} (m : M A) (e : exn) (handler : M A) : M A :=
  fun w => match m w with
           | (Ok a, w') => (Ok a, w')
           | (Raise e', w') =>
               if bool_decide (e' = e) then handler w' else (Raise e', w')
           end.

Declare Scope M_scope.
Delimit Scope M_scope with M.
Notation "x <- m ;; k" := (bind m (fun x => k))
  (at level 100, m at next level, right associativity) : M_scope.
Notation "m ;; k" := (bind m (fun _ => k))
  (at level 100, right associativity) : M_scope.

(** ** The calls of [os.path] and of the [sqlite3] module *)

Definition os_path_exists (path : string) : M bool :=
  fun w => (Ok (bool_decide (is_Some (files w !! path))), w).

Definition read_file (path : string) : M database :=
  fun w => (Ok (default empty_database (files w !! path)), w).

Definition write_file (path : string) (db : database) : M unit :=
  fun w => (Ok tt, mkworld (<[path := db]> (files w)) (connections w)).

(** [sqlite3.connect(path)]: the file is created, empty, when it is not
    there. The connection object returned is its place in the table. *)
Definition connect (path : string) : M nat :=
  fun w =>
    let fs := match files w !! path with
              | Some _ => files w
              | None => <[path := empty_database]> (files w)
              end in
    (Ok (length (connections w)),
     mkworld fs (connections w ++ [mkconnection path None 0 false])).

Definition set_connection (conn : nat) (c : connection) : M unit :=
  fun w => (Ok tt, mkworld (files w) (<[conn := c]> (connections w))).

(** Any use of a closed connection is a [ProgrammingError]. *)
Definition with_connection {A} (conn : nat) (k : connection -> M A) : M A :=
  fun w =>
    match connections w !! conn with
    | Some c => if closed c then (Raise ProgrammingError, w) else k c w
    | None => (Raise ProgrammingError, w)
    end.

(** [conn.commit()] *)
Definition commit (conn : nat) : M unit :=
  with_connection conn (fun c =>
    match transaction c with
    | None => ret tt
    | Some db =>
        (write_file (database_file c) db ;;
         set_connection conn
           (mkconnection (database_file c) None (total_changes c) false))%M
    end).

(** [conn.execute(sql, params)] / [cursor.execute(sql, params)].
    An [INSERT] opens a transaction when none is open and runs inside it;
    when it fails the statement alone is undone, the transaction stays
    open with what it held. A [CREATE] first commits an open transaction
    and then runs directly on the file. *)
Definition execute (conn : nat) (stmt : statement) (params : list value)
    : M unit :=
  if is_dml stmt then
    with_connection conn (fun c =>
      (db <- match transaction c with
             | Some db => ret db
             | None => read_file (database_file c)
             end ;;
       set_connection conn
         (mkconnection (database_file c) (Some db) (total_changes c) false) ;;
       match exec db stmt params with
       | Ok db' =>
           set_connection conn
             (mkconnection (database_file c) (Some db')
                           (S (total_changes c)) false)
       | Raise e => raise e
       end)%M)
  else
    (commit conn ;;
     with_connection conn (fun c =>
       db <- read_file (database_file c) ;;
       match exec db stmt params with
       | Ok db' => write_file (database_file c) db'
       | Raise e => raise e
       end))%M.

(** The loop of [executemany] over the parameter tuples: the statement
    is run once per element, in order; the first failure ends the loop. *)
Fixpoint executemany_loop (conn : nat) (stmt : statement)
    (seq_of_params : list (list value)) : M unit :=
  match seq_of_params with
  | [] => ret tt
  | params :: rest =>
      (execute conn stmt params ;; executemany_loop conn stmt rest)%M
  end.

(** [cursor.executemany(sql, seq_of_params)]: for an [INSERT] a
    transaction is opened when none is open and the statement is compiled,
    both before the first element is looked at, so that a statement that
    does not compile fails on an empty sequence too; then the loop. *)
Definition executemany (conn : nat) (stmt : statement)
    (seq_of_params : list (list value)) : M unit :=
  if is_dml stmt then
    with_connection conn (fun c =>
      (db <- match transaction c with
             | Some db => ret db
             | None => read_file (database_file c)
             end ;;
       set_connection conn
         (mkconnection (database_file c) (Some db) (total_changes c) false) ;;
       match prepare db stmt with
       | Ok _ => executemany_loop conn stmt seq_of_params
       | Raise e => raise e
       end)%M)
  else raise ProgrammingError.

(** [conn.cursor()]: a cursor runs its statements on its connection. *)
Definition cursor (conn : nat) : M nat :=
  with_connection conn (fun _ => ret conn).

Definition cursor_close (c : nat) : M unit := ret tt.

(** [conn.total_changes] *)
Definition get_total_changes (conn : nat) : M nat :=
  with_connection conn (fun c => ret (total_changes c)).

(** [conn.close()]: an open transaction is rolled back. *)
Definition close (conn : nat) : M unit :=
  fun w =>
    match connections w !! conn with
    | Some c =>
        set_connection conn
          (mkconnection (database_file c) None (total_changes c) true) w
    | None => (Raise ProgrammingError, w)
    end.

(** ** The store: [create_db] and [save_to_db] *)

(** The statements of the source, lines 105-108 and 128. *)
Definition CREATE_TABLE_TimeSeries : statement :=
  CREATE_TABLE "TimeSeries"
    [("Cd", "text"); ("Date", "date"); ("Open", "float"); ("High", "float");
     ("Low", "float"); ("Close", "float"); ("Volume", "float");
     ("AdjClose", "float")].

Definition CREATE_TABLE_Assets : statement :=
  CREATE_TABLE "Assets"
    [("Cd", "text"); ("Name", "text"); ("GicsSectorId", "int")].

Definition CREATE_TABLE_GicsSectors : statement :=
  CREATE_TABLE "GicsSectors" [("Id", "int"); ("Name", "text")].

Definition CREATE_UNIQUE_INDEX_Idx_TimeSeries : statement :=
  CREATE_UNIQUE_INDEX "Idx_TimeSeries" "TimeSeries" ["Cd"; "Date"].

Definition INSERT_INTO_TimeSeries : statement :=
  INSERT_INTO "TimeSeries"
    ["Cd"; "Date"; "Open"; "High"; "Low"; "Close"; "Volume"; "AdjClose"].

Definition create_db (filename : string) : M unit :=
  (there <- os_path_exists filename ;;
   if there : bool then raise IOError
   else
     conn <- connect filename ;;
     execute conn CREATE_TABLE_TimeSeries [] ;;
     execute conn CREATE_TABLE_Assets [] ;;
     execute conn CREATE_TABLE_GicsSectors [] ;;
     execute conn CREATE_UNIQUE_INDEX_Idx_TimeSeries [] ;;
     commit conn ;;
     close conn ;;
     ret tt)%M.

(** One element of [data.tolist()]: the tuple bound to the eight [?].
    A NaT date comes out as Python's [None], which is bound as [NULL]. *)
Definition tolist (r : PriceRecord) : list value :=
  [TEXT (schema.symbol r);
   match schema.date r with Some d => DATE d | None => NULL end;
   REAL (schema.open r);
   REAL (schema.high r); REAL (schema.low r); REAL (schema.close r);
   REAL (schema.volume r); REAL (schema.adjclose r)].

Definition save_to_db (data : list PriceRecord) (dbfilename : string)
    : M nat :=
  (there <- os_path_exists dbfilename ;;
   (if there : bool then ret tt else create_db dbfilename) ;;
   conn <- connect dbfilename ;;
   c <- cursor conn ;;
   try_except (executemany c INSERT_INTO_TimeSeries (map tolist data))
              IntegrityError (ret tt) ;;
   commit conn ;;
   change_count <- get_total_changes conn ;;
   cursor_close c ;;
   close conn ;;
   ret change_count)%M.

(** ** The symbol file of [populate_db], lines 159-169 *)

Definition badchars : list ascii :=
  ["/"; ":"; "^"; "%"; "\"]%char.

(** The inner loop, lines 166-168: both statements are in its body. *)
Fixpoint replace_loop (itms : list ascii) (symb : string)
    (symbolset : gset string) : string * gset string :=
  match itms with
  | [] => (symb, symbolset)
  | itm :: rest =>
      let symb := Str.replace itm "-"%char symb in
      let symbolset := {[Str.strip symb]} ∪ symbolset in
      replace_loop rest symb symbolset
  end.

(** The outer loop over the rows of the [csv.reader]. *)
Fixpoint reader_loop (reader : list (list string)) (symbolset : gset string)
    : result (gset string) :=
  match reader with
  | [] => Ok symbolset
  | line :: rest =>
      match line with
      | [] => Raise IndexError
      | symb :: _ =>
          reader_loop rest (replace_loop badchars symb symbolset).2
      end
  end.

(** What the five replacements together do to one character. *)
Definition dash_if_bad (c : ascii) : ascii :=
  if bool_decide (c ∈ badchars) then "-"%char else c.

Definition populate_db_symbolset (reader : list (list string))
    : result (gset string) :=
  reader_loop reader ∅.

(** * Properties *)

(** ** Results and string helpers *)

Lemma rmapM_app {A B} (f : A -> result B) (l1 l2 : list A) :
  rmapM f (l1 ++ l2)
  = (a <- rmapM f l1 ;; b <- rmapM f l2 ;; Ok (a ++ b))%result.
Proof.
  induction l1 as [|x l1 IH]; simpl.
  - destruct (rmapM f l2); reflexivity.
  - destruct (f x) as [y|e]; simpl; [|reflexivity].
    rewrite IH. destruct (rmapM f l1) as [ys|e]; simpl; [|reflexivity].
    destruct (rmapM f l2); reflexivity.
Qed.


Lemma rmapM_raises {A B} (f : A -> result B) (e0 : exn) (l : list A) :
  (forall x e, f x = Raise e -> e = e0) ->
  forall e, rmapM f l = Raise e -> e = e0.
Proof.
  intros Hf. induction l as [|x l IH]; simpl; intros e H; [discriminate|].
  destruct (f x) as [y|e'] eqn:Hx.
  - destruct (rmapM f l) as [zs|e'']; [discriminate|].
    injection H as <-. apply IH. reflexivity.
  - injection H as <-. eapply Hf, Hx.
Qed.


Lemma rmapM_Forall2 {A B} (f : A -> result B) (l : list A) (ys : list B) :
  rmapM f l = Ok ys -> Forall2 (fun x y => f x = Ok y) l ys.
Proof.
  revert ys. induction l as [|x l IH]; simpl; intros ys H.
  - injection H as <-. constructor.
  - destruct (f x) as [y|e] eqn:Hx; [|discriminate].
    destruct (rmapM f l) as [zs|e]; [|discriminate].
    injection H as <-. constructor; [exact Hx | apply IH; reflexivity].
Qed.

(** ** The parser *)

Section ParserFacts.

Variable py_float : string -> option float.
Variable np_datetime64 : string -> option datetime64.

Local Abbreviation loop := (parse_lines py_float).
Local Abbreviation convert := (to_schema np_datetime64).
Local Abbreviation array := (np_array np_datetime64).
Local Abbreviation record := (line_record py_float np_datetime64).
Local Abbreviation parse := (parse_response py_float np_datetime64).

Lemma floats_raise (items : list string) (e : exn) :
  rmapM (fun x => or_ValueError (py_float x)) items = Raise e ->
  e = ValueError.
Proof.
  apply rmapM_raises. intros x e'. destruct (py_float x); simpl; congruence.
Qed.

Lemma to_schema_raise (t : raw_tuple) (e : exn) :
  convert t = Raise e -> e = ValueError.
Proof.
  destruct t as [[[[[[[s dt] o] h] l] c] v] a]. simpl.
  destruct (np_datetime64 dt); congruence.
Qed.

Lemma np_array_raise (data : list raw_tuple) (e : exn) :
  array data = Raise e -> e = ValueError.
Proof. apply rmapM_raises. intros x e'. apply to_schema_raise. Qed.

Lemma parse_lines_raise symbol lines data e :
  loop symbol lines data = Raise e -> e = ValueError.
Proof.
  revert data. induction lines as [|line rest IH]; simpl; intros data H.
  - discriminate.
  - destruct (negb _); [eauto|].
    destruct (rmapM _ _) as [fs|e'] eqn:Hf.
    + destruct fs as [|o [|h [|l [|c [|v [|a [|]]]]]]]; eauto; congruence.
    + apply floats_raise in Hf. congruence.
Qed.

Lemma parse_lines_extends symbol lines data d :
  loop symbol lines data = Ok d -> exists more, d = data ++ more.
Proof.
  revert data. induction lines as [|line rest IH]; simpl; intros data H.
  - injection H as <-. exists []. by rewrite app_nil_r.
  - destruct (negb _); [eauto|].
    destruct (rmapM _ _) as [fs|e']; [|discriminate].
    destruct fs as [|o [|h [|l [|c [|v [|a [|]]]]]]]; try discriminate.
    apply IH in H as [more ->]. rewrite <- app_assoc. eauto.
Qed.

Lemma np_array_stuck data pre t more :
  array data = Ok pre -> convert t = Raise ValueError ->
  array (data ++ t :: more) = Raise ValueError.
Proof.
  intros Hd Ht. unfold np_array in *. rewrite rmapM_app, Hd.
  simpl. rewrite Ht. reflexivity.
Qed.

(** The loop followed by the conversion reads the seven-field lines one
    by one, in order, and nothing else. *)
Lemma parse_lines_spec symbol lines data pre :
  array data = Ok pre ->
  (d <- loop symbol lines data ;; array d)%result
  = (rest <- rmapM (record symbol) (List.filter seven_fields lines) ;;
     Ok (pre ++ rest))%result.
Proof.
  revert data pre.
  induction lines as [|line rest IH]; simpl; intros data pre Hd.
  - rewrite Hd, app_nil_r. reflexivity.
  - unfold seven_fields at 1.
    destruct (length (items_of line) =? 7)%nat eqn:H7; simpl; [|eauto].
    unfold line_record at 1.
    destruct (rmapM _ (slice_1_7 _)) as [fs|e'] eqn:Hf; simpl.
    + destruct fs as [|o [|h [|l [|c [|v [|a [|]]]]]]]; try reflexivity.
      remember (symbol, nth 0 (items_of line) EmptyString, o, h, l, c, v, a)
        as t eqn:Et.
      assert (Ht0 : convert t
                    = match np_datetime64 (nth 0 (items_of line) EmptyString)
                      with
                      | Some d => Ok (mkPriceRecord (S8 symbol) d o h l c v a)
                      | None => Raise ValueError
                      end) by (subst t; reflexivity).
      rewrite <- Ht0. clear Ht0 Et.
      destruct (convert t) as [r|e] eqn:Ht; simpl.
      * erewrite IH; last first.
        { unfold np_array in *. rewrite rmapM_app, Hd. simpl.
          rewrite Ht. reflexivity. }
        destruct (rmapM _ _) as [rs|e]; simpl; [|reflexivity].
        by rewrite <- app_assoc.
      * pose proof (to_schema_raise _ _ Ht) as ->.
        destruct (loop symbol rest (data ++ [t])) as [d|e] eqn:Hp;
          simpl.
        -- apply parse_lines_extends in Hp as [more ->].
           rewrite <- app_assoc. simpl. eapply np_array_stuck; eauto.
        -- apply parse_lines_raise in Hp as ->. reflexivity.
    + apply floats_raise in Hf as ->. reflexivity.
Qed.

Lemma parse_response_spec symbol lines :
  parse symbol lines
  = rmapM (record symbol) (List.filter seven_fields (drop 1 lines)).
Proof.
  unfold parse_response.
  rewrite (parse_lines_spec symbol _ [] []) by reflexivity.
  destruct (rmapM _ _); reflexivity.
Qed.


End ParserFacts.

(** ** The request URL *)

(** C6, as the source has it: of the six date parameters of the request
    only the two months, [a] and [d], are sent zero-indexed (the calendar
    month minus one); the days [b], [e] and the years [c], [f] are sent
    as they are. *)
Theorem C6_only_months_are_zero_indexed (symbol period : string)
    (startdate enddate : datetime.date) :
  request_url symbol startdate enddate period
  = Ok ("http://ichart.finance.yahoo.com/table.csv?s=" +:+ symbol
        +:+ "&a=" +:+ pretty (datetime.month startdate - 1)
        +:+ "&b=" +:+ pretty (datetime.day startdate)
        +:+ "&c=" +:+ pretty (datetime.year startdate)
        +:+ "&d=" +:+ pretty (datetime.month enddate - 1)
        +:+ "&e=" +:+ pretty (datetime.day enddate)
        +:+ "&f=" +:+ pretty (datetime.year enddate)
        +:+ "&y=0&g=" +:+ period +:+ "&ignore=.csv").
Proof. reflexivity. Qed.

(** C6 as the specification words it fails: for 2012-03-15 to 2012-04-20
    the request carries [b=15], [c=2012], [e=20], [f=2012], not the values
    minus one. *)
Lemma C6_days_and_years_not_zero_indexed :
  request_url "ABC" (datetime.mkdate 2012 3 15) (datetime.mkdate 2012 4 20)
              "d"
  = Ok ("http://ichart.finance.yahoo.com/table.csv?s=ABC"
        +:+ "&a=2&b=15&c=2012&d=3&e=20&f=2012&y=0&g=d&ignore=.csv")
  /\ request_url "ABC" (datetime.mkdate 2012 3 15)
                 (datetime.mkdate 2012 4 20) "d"
     <> Ok ("http://ichart.finance.yahoo.com/table.csv?s=ABC"
            +:+ "&a=" +:+ pretty (3 - 1) +:+ "&b=" +:+ pretty (15 - 1)
            +:+ "&c=" +:+ pretty (2012 - 1)
            +:+ "&d=" +:+ pretty (4 - 1) +:+ "&e=" +:+ pretty (20 - 1)
            +:+ "&f=" +:+ pretty (2012 - 1)
            +:+ "&y=0&g=d&ignore=.csv").
Proof. split; [reflexivity | vm_compute; discriminate]. Qed.

(** ** The symbol file *)

Lemma replace_as_map (old new : ascii) (s : string) :
  Str.replace old new s
  = Str.map (fun c => if Ascii.eqb c old then new else c) s.
Proof. induction s as [|c s IH]; simpl; congruence. Qed.

Lemma map_map (f g : ascii -> ascii) (s : string) :
  Str.map g (Str.map f s) = Str.map (fun c => g (f c)) s.
Proof. induction s as [|c s IH]; simpl; congruence. Qed.

Lemma map_ext (f g : ascii -> ascii) (s : string) :
  (forall c, f c = g c) -> Str.map f s = Str.map g s.
Proof. intros H. induction s as [|c s IH]; simpl; congruence. Qed.

Lemma contains_map (f : ascii -> ascii) (c : ascii) (s : string) :
  (forall x, f x <> c) -> Str.contains c (Str.map f s) = false.
Proof.
  intros H. induction s as [|x s IH]; simpl; [reflexivity|].
  rewrite IH, orb_false_r. apply Ascii.eqb_neq, H.
Qed.

Lemma contains_lstrip (c : ascii) (s : string) :
  Str.contains c s = false -> Str.contains c (Str.lstrip s) = false.
Proof.
  induction s as [|x s IH]; simpl; [reflexivity|]. intros H.
  apply orb_false_elim in H as [Hx Hs].
  destruct (Ascii.is_space x); simpl; [auto | by rewrite Hx, Hs].
Qed.

Lemma contains_rstrip (c : ascii) (s : string) :
  Str.contains c s = false -> Str.contains c (Str.rstrip s) = false.
Proof.
  induction s as [|x s IH]; simpl; [reflexivity|]. intros H.
  apply orb_false_elim in H as [Hx Hs]. specialize (IH Hs).
  destruct (Str.rstrip s) as [|y r]; simpl in *.
  - destruct (Ascii.is_space x); simpl; [reflexivity | by rewrite Hx].
  - by rewrite Hx, IH.
Qed.

Lemma contains_strip (c : ascii) (s : string) :
  Str.contains c s = false -> Str.contains c (Str.strip s) = false.
Proof. intros H. apply contains_rstrip, contains_lstrip, H. Qed.

Lemma lstrip_split (s : string) :
  exists l, s = l +:+ Str.lstrip s /\ Str.all_space l = true.
Proof.
  induction s as [|x s [l [IH Hl]]].
  - exists EmptyString. split; reflexivity.
  - simpl Str.lstrip. destruct (Ascii.is_space x) eqn:Hx.
    + exists (String x l). split.
      * change (String x s = String x (l +:+ Str.lstrip s)). by f_equal.
      * simpl. by rewrite Hx, Hl.
    + exists EmptyString. split; reflexivity.
Qed.

Lemma rstrip_split (s : string) :
  exists r, s = Str.rstrip s +:+ r /\ Str.all_space r = true.
Proof.
  induction s as [|x s [r [IH Hr]]].
  - exists EmptyString. split; reflexivity.
  - simpl Str.rstrip. destruct (Str.rstrip s) as [|y t] eqn:Ht.
    + change (s = r) in IH. subst s. destruct (Ascii.is_space x) eqn:Hx.
      * exists (String x r). split; [reflexivity|]. simpl. by rewrite Hx, Hr.
      * exists r. split; [reflexivity | exact Hr].
    + exists r. split; [|exact Hr].
      change (String x s = String x (String y t +:+ r)). by f_equal.
Qed.

Lemma append_assoc (a b c : string) : (a +:+ b) +:+ c = a +:+ (b +:+ c).
Proof.
  induction a as [|x a IH]; [reflexivity|].
  change (String x ((a +:+ b) +:+ c) = String x (a +:+ (b +:+ c))).
  by f_equal.
Qed.

(** [strip] takes whitespace off the two ends and nothing else. *)
Lemma strip_split (s : string) :
  exists l r, s = l +:+ Str.strip s +:+ r
              /\ Str.all_space l = true /\ Str.all_space r = true.
Proof.
  destruct (lstrip_split s) as [l [Hl Hls]].
  destruct (rstrip_split (Str.lstrip s)) as [r [Hr Hrs]].
  exists l, r. unfold Str.strip. rewrite <- Hr. auto.
Qed.

(** The five replacements, seen on one character. *)
Definition replaced (itms : list ascii) (c : ascii) : ascii :=
  fold_left (fun c itm => if Ascii.eqb c itm then "-"%char else c) itms c.

Lemma map_id (s : string) : Str.map (fun c => c) s = s.
Proof. induction s as [|c s IH]; simpl; congruence. Qed.

Lemma replace_loop_fst (itms : list ascii) (symb : string)
    (symbolset : gset string) :
  (replace_loop itms symb symbolset).1 = Str.map (replaced itms) symb.
Proof.
  revert symb symbolset. induction itms as [|itm rest IH]; intros symb S.
  - simpl. symmetry. apply map_id.
  - simpl. rewrite IH, replace_as_map, map_map. reflexivity.
Qed.

Lemma replaced_badchars (c : ascii) : replaced badchars c = dash_if_bad c.
Proof. destruct c as [[] [] [] [] [] [] [] []]; vm_compute; reflexivity. Qed.

Lemma dash_if_bad_not_bad (c x : ascii) : c ∈ badchars -> dash_if_bad x <> c.
Proof.
  unfold dash_if_bad. intros Hc. case_bool_decide as Hx.
  - intros <-. revert Hc. unfold badchars.
    rewrite !elem_of_cons, elem_of_nil. intros [|[|[|[|[|[]]]]]]; discriminate.
  - congruence.
Qed.

Lemma replace_loop_mono (itms : list ascii) (symb : string)
    (symbolset : gset string) :
  symbolset ⊆ (replace_loop itms symb symbolset).2.
Proof.
  revert symb symbolset. induction itms as [|itm rest IH]; intros symb S.
  - reflexivity.
  - simpl. etransitivity; [|apply IH]. set_solver.
Qed.

(** The value added at the last turn of the inner loop is in the set. *)
Lemma replace_loop_last (itms : list ascii) (symb : string)
    (symbolset : gset string) :
  itms <> [] ->
  Str.strip (replace_loop itms symb symbolset).1
  ∈ (replace_loop itms symb symbolset).2.
Proof.
  revert symb symbolset. induction itms as [|itm rest IH]; intros symb S Hne.
  - congruence.
  - simpl. destruct rest as [|itm' rest'].
    + simpl. set_solver.
    + apply IH. discriminate.
Qed.

Lemma reader_loop_mono (reader : list (list string)) (S S' : gset string) :
  reader_loop reader S = Ok S' -> S ⊆ S'.
Proof.
  revert S. induction reader as [|line rest IH]; cbn [reader_loop]; intros S H.
  - by injection H as <-.
  - destruct line as [|symb fields]; [discriminate|].
    apply IH in H. etransitivity; [apply replace_loop_mono | exact H].
Qed.

Lemma reader_loop_last (reader : list (list string)) (S S' : gset string)
    (symb : string) (fields : list string) :
  reader_loop reader S = Ok S' -> (symb :: fields) ∈ reader ->
  Str.strip (Str.map dash_if_bad symb) ∈ S'.
Proof.
  revert S.
  induction reader as [|line rest IH]; cbn [reader_loop]; intros S H Hin.
  - by apply elem_of_nil in Hin.
  - destruct line as [|symb' fields']; [discriminate|].
    apply elem_of_cons in Hin as [Heq|Hin]; [|eauto].
    injection Heq as <- <-. apply reader_loop_mono in H. apply H.
    replace (Str.map dash_if_bad symb) with (replace_loop badchars symb S).1.
    + apply replace_loop_last. discriminate.
    + rewrite replace_loop_fst. apply map_ext, replaced_badchars.
Qed.

Lemma reader_loop_total (reader : list (list string)) (S : gset string) :
  Forall (fun line => line <> []) reader -> exists S', reader_loop reader S = Ok S'.
Proof.
  intros H. revert S.
  induction H as [|line rest Hne _ IH]; intros S; cbn [reader_loop].
  - eauto.
  - destruct line; [congruence | apply IH].
Qed.

(** C5, as the source has it: for every row of the symbol file, the value
    the inner loop adds last (after the fifth replacement) is in the
    resulting set, contains none of [/ : ^ % \], and is the first field
    with each of these five characters replaced by [-] and the whitespace
    at its two ends removed; every other character is kept, in place.
    Nothing is said here of the values the loop adds before its last
    turn. *)
Theorem C5_last_added_value_is_sanitized (reader : list (list string))
    (symb : string) (fields : list string) :
  (symb :: fields) ∈ reader ->
  let value := Str.strip (Str.map dash_if_bad symb) in
  (forall S, (replace_loop badchars symb S).1 = Str.map dash_if_bad symb)
  /\ (forall c, c ∈ badchars -> Str.contains c value = false)
  /\ (exists l r, Str.map dash_if_bad symb = l +:+ value +:+ r
                  /\ Str.all_space l = true /\ Str.all_space r = true)
  /\ (forall c, c ∉ badchars -> dash_if_bad c = c)
  /\ (forall symbolset, populate_db_symbolset reader = Ok symbolset ->
         value ∈ symbolset)
  /\ (Forall (fun line => line <> []) reader ->
      exists symbolset, populate_db_symbolset reader = Ok symbolset).
Proof.
  intros Hin value. repeat split.
  - intros S. rewrite replace_loop_fst. apply map_ext, replaced_badchars.
  - intros c Hc. apply contains_strip, contains_map.
    intros x. by apply dash_if_bad_not_bad.
  - apply strip_split.
  - intros c Hc. unfold dash_if_bad. by rewrite bool_decide_eq_false_2.
  - intros S H. eapply reader_loop_last; eauto.
  - apply reader_loop_total.
Qed.

(** C5 as the specification words it fails on the row [" A:B"]: the set
    holds ["A:B"], added after the first replacement and still containing
    [:], and no value keeps the leading blank. *)
Lemma C5_unsanitized_value_in_set :
  populate_db_symbolset [[" A:B"]] = Ok {["A:B"; "A-B"]}
  /\ Str.contains ":" "A:B" = true
  /\ Str.contains " " "A:B" = false /\ Str.contains " " "A-B" = false.
Proof. split; [vm_compute; reflexivity | repeat split]. Qed.

Lemma C5_witness :
  ["A/B:C"; "x"] ∈ [["A/B:C"; "x"]; ["D"]]
  /\ (forall symbolset,
        populate_db_symbolset [["A/B:C"; "x"]; ["D"]] = Ok symbolset ->
        "A-B-C" ∈ symbolset).
Proof.
  assert (H : ["A/B:C"; "x"] ∈ [["A/B:C"; "x"]; ["D"]]) by apply list_elem_of_here.
  split; [exact H|].
  exact (proj1 (proj2 (proj2 (proj2 (proj2
           (C5_last_added_value_is_sanitized _ _ _ H)))))).
Defined.

(** ** The store *)

(** The database [create_db] leaves, with [recs] stored in [TimeSeries]. *)
Definition TimeSeries_db (recs : list PriceRecord) : database :=
  mkdatabase
    [("TimeSeries",
      mktable [("Cd", "text"); ("Date", "date"); ("Open", "float");
               ("High", "float"); ("Low", "float"); ("Close", "float");
               ("Volume", "float"); ("AdjClose", "float")]
              (map tolist recs));
     ("Assets",
      mktable [("Cd", "text"); ("Name", "text"); ("GicsSectorId", "int")] []);
     ("GicsSectors", mktable [("Id", "int"); ("Name", "text")] [])]
    [("Idx_TimeSeries", mkindex "TimeSeries" ["Cd"; "Date"])].

(** The (symbol, date) of a record, the key of [Idx_TimeSeries]. *)
Definition key (r : PriceRecord) : string * datetime64 :=
  (schema.symbol r, schema.date r).

(** A record whose date is a day, not NaT. *)
Definition dated (r : PriceRecord) : Prop := is_Some (schema.date r).

#[global] Instance dated_dec (r : PriceRecord) : Decision (dated r).
Proof. unfold dated. apply _. Defined.

(** Two rows collide under the index when symbol and date agree and the
    date is a day: a NaT date is stored as [NULL], and a [NULL] never
    collides. *)
Definition same_key (a b : PriceRecord) : bool :=
  String.eqb (schema.symbol a) (schema.symbol b)
  && match schema.date a, schema.date b with
     | Some x, Some y => datetime.eqb x y
     | _, _ => false
     end.

Definition has_key (recs : list PriceRecord) (r : PriceRecord) : bool :=
  existsb (fun old => same_key old r) recs.

(** The rows of a batch that go in: those before the first one whose key
    is taken, by a stored row or by an earlier row of the batch. *)
Fixpoint accepted (stored data : list PriceRecord) : list PriceRecord :=
  match data with
  | [] => []
  | r :: rest =>
      if has_key stored r then [] else r :: accepted (stored ++ [r]) rest
  end.

Lemma datetime_eqb_eq (a b : datetime.date) : datetime.eqb a b = true <-> a = b.
Proof.
  destruct a as [y m d], b as [y' m' d']. unfold datetime.eqb. simpl.
  rewrite !andb_true_iff, !Z.eqb_eq. split.
  - intros [[-> ->] ->]. reflexivity.
  - intros [= -> -> ->]. auto.
Qed.

Lemma same_key_spec (a b : PriceRecord) :
  same_key a b = true <-> key a = key b /\ dated b.
Proof.
  unfold same_key, key, dated.
  rewrite andb_true_iff, String.eqb_eq.
  destruct (schema.date a) as [x|], (schema.date b) as [y|].
  - rewrite datetime_eqb_eq. split.
    + intros [-> ->]. split; [reflexivity | by eexists].
    + intros [[= -> ->] _]. auto.
  - split; [intros [_ ?]; discriminate | intros [[= _] _]].
  - split; [intros [_ ?]; discriminate | intros [[= _] _]].
  - split; [intros [_ ?]; discriminate | intros [_ [? [=]]]].
Qed.

Lemma has_key_spec (recs : list PriceRecord) (r : PriceRecord) :
  has_key recs r = true <-> dated r /\ key r ∈ map key recs.
Proof.
  unfold has_key. rewrite existsb_exists, list_elem_of_fmap. split.
  - intros [old [Hin Hk]]. apply same_key_spec in Hk as [Hk Hd].
    split; [exact Hd|]. exists old.
    split; [congruence | by apply list_elem_of_In].
  - intros [Hd [old [Hk Hin]]]. exists old.
    split; [by apply list_elem_of_In | apply same_key_spec; split; congruence].
Qed.

(** A record with a NaT date never finds its key taken. *)
Lemma has_key_NaT (recs : list PriceRecord) (r : PriceRecord) :
  schema.date r = None -> has_key recs r = false.
Proof.
  intros Hr. destruct (has_key recs r) eqn:E; [|reflexivity].
  apply has_key_spec in E as [[d Hd] _]. congruence.
Qed.

Lemma has_key_app (l1 l2 : list PriceRecord) (r : PriceRecord) :
  has_key (l1 ++ l2) r = has_key l1 r || has_key l2 r.
Proof. apply existsb_app. Qed.

Lemma key_eqb_tolist (old r : PriceRecord) (t : table) :
  columns t = [("Cd", "text"); ("Date", "date"); ("Open", "float");
               ("High", "float"); ("Low", "float"); ("Close", "float");
               ("Volume", "float"); ("AdjClose", "float")] ->
  key_eqb (key_of t (mkindex "TimeSeries" ["Cd"; "Date"]) (tolist old))
          (key_of t (mkindex "TimeSeries" ["Cd"; "Date"]) (tolist r))
  = same_key old r.
Proof.
  intros Hc. unfold key_of. rewrite Hc.
  destruct old as [s1 [d1|] ? ? ? ? ? ?], r as [s2 [d2|] ? ? ? ? ? ?];
    unfold same_key; simpl; by rewrite ?andb_true_r.
Qed.

Lemma collides_tolist (recs : list PriceRecord) (r : PriceRecord) (t : table) :
  columns t = [("Cd", "text"); ("Date", "date"); ("Open", "float");
               ("High", "float"); ("Low", "float"); ("Close", "float");
               ("Volume", "float"); ("AdjClose", "float")] ->
  rows t = map tolist recs ->
  collides t (mkindex "TimeSeries" ["Cd"; "Date"]) (tolist r) = has_key recs r.
Proof.
  intros Hc Hr. unfold collides, has_key. rewrite Hr. clear Hr.
  induction recs as [|old recs IH]; [reflexivity|].
  cbn [existsb map]. by rewrite IH, key_eqb_tolist.
Qed.

(** One [INSERT] of the source against the database of the source. *)
Lemma exec_INSERT_INTO_TimeSeries (recs : list PriceRecord) (r : PriceRecord) :
  exec (TimeSeries_db recs) INSERT_INTO_TimeSeries (tolist r)
  = if has_key recs r then Raise IntegrityError
    else Ok (TimeSeries_db (recs ++ [r])).
Proof.
  unfold exec, INSERT_INTO_TimeSeries.
  change (assoc "TimeSeries" (tables (TimeSeries_db recs)))
    with (Some (mktable [("Cd", "text"); ("Date", "date"); ("Open", "float");
                         ("High", "float"); ("Low", "float");
                         ("Close", "float"); ("Volume", "float");
                         ("AdjClose", "float")] (map tolist recs))).
  cbv iota beta.
  set (t := mktable _ (map tolist recs)).
  replace (forallb (has_column t) _) with true by reflexivity.
  replace (length (tolist r) =? _)%nat with true by reflexivity.
  cbv iota beta zeta. unfold negb.
  replace (bind_row t _ (tolist r)) with (tolist r)
    by (destruct r; reflexivity).
  change (violates_unique (TimeSeries_db recs) "TimeSeries" t (tolist r))
    with (true && collides t (mkindex "TimeSeries" ["Cd"; "Date"]) (tolist r)
          || false).
  rewrite orb_false_r, andb_true_l.
  rewrite (collides_tolist recs r t) by reflexivity.
  destruct (has_key recs r); [reflexivity|].
  unfold TimeSeries_db. rewrite map_app. reflexivity.
Qed.

(** ** Running the calls *)

Lemma bind_Ok {A B} (m : M A) (k : A -> M B) (w w' : world) (a : A) :
  m w = (Ok a, w') -> bind m k w = k a w'.
Proof. unfold bind. by intros ->. Qed.

Lemma bind_Raise {A B} (m : M A) (k : A -> M B) (w w' : world) (e : exn) :
  m w = (Raise e, w') -> bind m k w = (Raise e, w').
Proof. unfold bind. by intros ->. Qed.

Lemma lookup_last (conns : list connection) (c : connection) :
  (conns ++ [c]) !! length conns = Some c.
Proof. by apply list_lookup_middle. Qed.

Lemma insert_last (conns : list connection) (c c' : connection) :
  <[length conns := c']> (conns ++ [c]) = conns ++ [c'].
Proof. induction conns as [|x conns IH]; simpl; congruence. Qed.

(** The world in which the connection opened last, on [path], is in state
    [(tx, n)], open or closed. *)
Definition focus (conns : list connection) (path : string)
    (fs : gmap string database) (tx : option database) (n : nat) (cl : bool)
    : world :=
  mkworld fs (conns ++ [mkconnection path tx n cl]).

Section Runs.

Variable fs : gmap string database.
Variable conns : list connection.
Variable path : string.

Local Abbreviation W := (focus conns path).
Local Abbreviation conn := (length conns).

Lemma os_path_exists_run (w : world) (p : string) :
  os_path_exists p w = (Ok (bool_decide (is_Some (files w !! p))), w).
Proof. reflexivity. Qed.

Lemma connect_run :
  connect path (mkworld fs conns)
  = (Ok conn,
     W (match fs !! path with
        | Some _ => fs
        | None => <[path := empty_database]> fs
        end) None 0 false).
Proof. reflexivity. Qed.

Lemma with_connection_run {A} (k : connection -> M A) tx n :
  with_connection conn k (W fs tx n false)
  = k (mkconnection path tx n false) (W fs tx n false).
Proof.
  unfold with_connection, focus. simpl. by rewrite lookup_last.
Qed.

Lemma with_connection_closed {A} (k : connection -> M A) tx n :
  with_connection conn k (W fs tx n true)
  = (Raise ProgrammingError, W fs tx n true).
Proof.
  unfold with_connection, focus. simpl. by rewrite lookup_last.
Qed.

Lemma set_connection_run tx n cl tx' n' cl' :
  set_connection conn (mkconnection path tx' n' cl') (W fs tx n cl)
  = (Ok tt, W fs tx' n' cl').
Proof.
  unfold set_connection, focus. simpl. by rewrite insert_last.
Qed.

Lemma commit_run tx n :
  commit conn (W fs tx n false)
  = (Ok tt,
     W (match tx with Some db => <[path := db]> fs | None => fs end)
       None n false).
Proof.
  unfold commit. rewrite with_connection_run. simpl.
  destruct tx as [db|]; [|reflexivity].
  unfold bind, write_file, set_connection, focus. simpl.
  by rewrite insert_last.
Qed.

Lemma close_run tx n :
  close conn (W fs tx n false) = (Ok tt, W fs None n true).
Proof.
  unfold close, focus. simpl. rewrite lookup_last. simpl.
  unfold set_connection. simpl. by rewrite insert_last.
Qed.

Lemma get_total_changes_run tx n :
  get_total_changes conn (W fs tx n false) = (Ok n, W fs tx n false).
Proof. unfold get_total_changes. by rewrite with_connection_run. Qed.

Lemma cursor_run tx n :
  cursor conn (W fs tx n false) = (Ok conn, W fs tx n false).
Proof. unfold cursor. by rewrite with_connection_run. Qed.

(** The database a statement of the connection works on. *)
Definition view (fs' : gmap string database) (tx : option database)
    : database :=
  match tx with
  | Some db => db
  | None => default empty_database (fs' !! path)
  end.

Lemma execute_dml_run stmt params tx n :
  is_dml stmt = true ->
  execute conn stmt params (W fs tx n false)
  = match exec (view fs tx) stmt params with
    | Ok db' => (Ok tt, W fs (Some db') (S n) false)
    | Raise e => (Raise e, W fs (Some (view fs tx)) n false)
    end.
Proof.
  intros Hdml. unfold execute. rewrite Hdml, with_connection_run. simpl.
  unfold bind at 1.
  assert (Hv : match tx with
               | Some db => ret db
               | None => read_file path
               end (W fs tx n false)
               = (Ok (view fs tx), W fs tx n false))
    by (destruct tx; reflexivity).
  rewrite Hv. unfold bind at 1. rewrite set_connection_run.
  destruct (exec (view fs tx) stmt params) as [db'|e].
  - by rewrite set_connection_run.
  - reflexivity.
Qed.

Lemma execute_ddl_run stmt params n :
  is_dml stmt = false ->
  execute conn stmt params (W fs None n false)
  = match exec (view fs None) stmt params with
    | Ok db' => (Ok tt, W (<[path := db']> fs) None n false)
    | Raise e => (Raise e, W fs None n false)
    end.
Proof.
  intros Hdml. unfold execute. rewrite Hdml.
  erewrite bind_Ok by apply commit_run.
  rewrite with_connection_run. simpl. unfold bind, read_file. simpl.
  destruct (exec _ stmt params); reflexivity.
Qed.

End Runs.

Section StoreRuns.

Variable conns : list connection.
Variable path : string.

Local Abbreviation W := (focus conns path).
Local Abbreviation conn := (length conns).

Lemma execute_ddl_on (fs : gmap string database) (db db' : database)
    (stmt : statement) (n : nat) :
  is_dml stmt = false -> exec db stmt [] = Ok db' ->
  execute conn stmt [] (W (<[path := db]> fs) None n false)
  = (Ok tt, W (<[path := db']> fs) None n false).
Proof.
  intros Hdml Hex. rewrite execute_ddl_run by exact Hdml.
  unfold view. rewrite lookup_insert_eq. simpl. rewrite Hex.
  by rewrite insert_insert_eq.
Qed.

(** [create_db] on a path that is not there. *)
Lemma create_db_run (fs : gmap string database) :
  fs !! path = None ->
  create_db path (mkworld fs conns)
  = (Ok tt, W (<[path := TimeSeries_db []]> fs) None 0 true).
Proof.
  intros Hnone. unfold create_db.
  erewrite bind_Ok by apply os_path_exists_run.
  cbn [files]. rewrite Hnone.
  rewrite bool_decide_eq_false_2 by (intros [? ?]; discriminate).
  erewrite bind_Ok by apply connect_run. rewrite Hnone.
  erewrite bind_Ok by (by apply execute_ddl_on).
  erewrite bind_Ok by (by apply execute_ddl_on).
  erewrite bind_Ok by (by apply execute_ddl_on).
  erewrite bind_Ok by (by apply execute_ddl_on).
  erewrite bind_Ok by apply commit_run.
  erewrite bind_Ok by apply close_run.
  reflexivity.
Qed.

(** [create_db] on a path that is there. *)
Lemma create_db_exists (w : world) :
  is_Some (files w !! path) -> create_db path w = (Raise IOError, w).
Proof.
  intros Hsome. unfold create_db.
  erewrite bind_Ok by apply os_path_exists_run.
  by rewrite bool_decide_eq_true_2.
Qed.

(** The loop of [executemany] on the database of the source: it stores
    the accepted rows and raises when a row is left. *)
Lemma executemany_loop_run (fs : gmap string database)
    (data recs : list PriceRecord) (tx : option database) (n : nat) :
  view path fs tx = TimeSeries_db recs ->
  executemany_loop conn INSERT_INTO_TimeSeries (map tolist data)
                   (W fs tx n false)
  = (if (length (accepted recs data) =? length data)%nat then Ok tt
     else Raise IntegrityError,
     W fs
       (match data with
        | [] => tx
        | _ :: _ => Some (TimeSeries_db (recs ++ accepted recs data))
        end)
       (n + length (accepted recs data)) false).
Proof.
  revert recs tx n.
  induction data as [|r rest IH]; intros recs tx n Hview.
  - simpl. unfold ret. by rewrite Nat.add_0_r.
  - cbn [map executemany_loop accepted].
    destruct (has_key recs r) eqn:Hk.
    + erewrite bind_Raise; last first.
      { rewrite execute_dml_run by reflexivity.
        rewrite Hview, exec_INSERT_INTO_TimeSeries, Hk. reflexivity. }
      simpl. by rewrite app_nil_r, Nat.add_0_r.
    + erewrite bind_Ok; last first.
      { rewrite execute_dml_run by reflexivity.
        rewrite Hview, exec_INSERT_INTO_TimeSeries, Hk. reflexivity. }
      rewrite (IH (recs ++ [r])) by reflexivity.
      cbn [length]. rewrite Nat.add_succ_r. simpl Nat.eqb.
      f_equal. f_equal.
      destruct rest; simpl; by rewrite <- ?app_assoc, ?app_nil_r.
Qed.

Lemma executemany_run (fs : gmap string database)
    (data recs : list PriceRecord) (tx : option database) (n : nat) :
  view path fs tx = TimeSeries_db recs ->
  executemany conn INSERT_INTO_TimeSeries (map tolist data)
              (W fs tx n false)
  = (if (length (accepted recs data) =? length data)%nat then Ok tt
     else Raise IntegrityError,
     W fs (Some (TimeSeries_db (recs ++ accepted recs data)))
       (n + length (accepted recs data)) false).
Proof.
  intros Hview. unfold executemany.
  change (is_dml INSERT_INTO_TimeSeries) with true. cbv iota.
  rewrite with_connection_run.
  cbn [transaction database_file total_changes]. unfold bind at 1.
  assert (Hv : match tx with
               | Some db => ret db
               | None => read_file path
               end (W fs tx n false)
               = (Ok (view path fs tx), W fs tx n false))
    by (destruct tx; reflexivity).
  rewrite Hv. unfold bind at 1. rewrite set_connection_run. rewrite Hview.
  replace (prepare (TimeSeries_db recs) INSERT_INTO_TimeSeries)
    with (Ok tt : result unit) by reflexivity.
  rewrite (executemany_loop_run fs data recs (Some (TimeSeries_db recs)) n)
    by reflexivity.
  destruct data; [|reflexivity]. simpl. by rewrite app_nil_r.
Qed.

(** [save_to_db] on a store that holds the database of the source. *)
Lemma save_to_db_run (fs : gmap string database)
    (data recs : list PriceRecord) :
  fs !! path = Some (TimeSeries_db recs) ->
  save_to_db data path (mkworld fs conns)
  = (Ok (length (accepted recs data)),
     W (<[path := TimeSeries_db (recs ++ accepted recs data)]> fs)
       None (length (accepted recs data)) true).
Proof.
  intros Hfile. unfold save_to_db.
  erewrite bind_Ok by apply os_path_exists_run.
  cbn [files]. rewrite Hfile.
  rewrite bool_decide_eq_true_2 by eauto.
  erewrite bind_Ok by reflexivity.
  erewrite bind_Ok by apply connect_run. rewrite Hfile.
  erewrite bind_Ok by apply cursor_run.
  assert (Hview : view path fs None = TimeSeries_db recs)
    by (unfold view; by rewrite Hfile).
  erewrite bind_Ok; last first.
  { unfold try_except.
    rewrite (executemany_run fs data recs None 0 Hview).
    destruct (_ =? _)%nat; reflexivity. }
  erewrite bind_Ok by apply commit_run.
  erewrite bind_Ok by apply get_total_changes_run.
  erewrite bind_Ok by reflexivity.
  erewrite bind_Ok by apply close_run.
  reflexivity.
Qed.

End StoreRuns.

(** What a test of the store looks at: the number of rows of [TimeSeries]
    in the file, [SELECT COUNT( * ) FROM TimeSeries]. *)
Definition TimeSeries_rows (w : world) (path : string)
    : option (list (list value)) :=
  db ← files w !! path; t ← assoc "TimeSeries" (tables db); Some (rows t).

Definition TimeSeries_count (w : world) (path : string) : option nat :=
  length <$> TimeSeries_rows w path.

(** The store at [path] is not there yet, or is the database of the
    source holding [recs]. *)
Definition stored (w : world) (path : string) (recs : list PriceRecord)
    : Prop :=
  match files w !! path with
  | None => recs = []
  | Some db => db = TimeSeries_db recs
  end.

(** A first [save_to_db] on a path that is not there is [create_db]
    followed by a [save_to_db] that finds the file. *)
Lemma save_to_db_fresh (w : world) (path : string) (data : list PriceRecord) :
  files w !! path = None ->
  save_to_db data path w = save_to_db data path (create_db path w).2.
Proof.
  intros Hnone. destruct w as [fs conns]. cbn [files] in Hnone.
  rewrite (create_db_run conns path fs Hnone). cbn [snd].
  unfold save_to_db at 1.
  erewrite bind_Ok by apply os_path_exists_run.
  cbn [files]. rewrite Hnone.
  rewrite bool_decide_eq_false_2 by (intros [? ?]; discriminate).
  erewrite bind_Ok by (by apply create_db_run).
  unfold save_to_db.
  erewrite (bind_Ok (os_path_exists path)) by apply os_path_exists_run.
  unfold focus. cbn [files]. rewrite lookup_insert_eq.
  rewrite bool_decide_eq_true_2 by eauto.
  erewrite (bind_Ok (ret tt)) by reflexivity.
  reflexivity.
Qed.

(** [save_to_db] on a store of the source, there or not: it returns the
    number of accepted rows and leaves them committed in the file. *)
Lemma save_to_db_spec (w : world) (path : string)
    (data recs : list PriceRecord) :
  stored w path recs ->
  exists conns',
    save_to_db data path w
    = (Ok (length (accepted recs data)),
       focus conns' path
         (<[path := TimeSeries_db (recs ++ accepted recs data)]> (files w))
         None (length (accepted recs data)) true).
Proof.
  unfold stored. destruct (files w !! path) as [db|] eqn:Hfile.
  - intros ->. destruct w as [fs conns]. cbn [files] in *.
    exists conns. by apply save_to_db_run.
  - intros ->. rewrite save_to_db_fresh by exact Hfile.
    destruct w as [fs conns]. cbn [files] in *.
    rewrite (create_db_run conns path fs Hfile). cbn [snd]. unfold focus at 1.
    eexists.
    rewrite (save_to_db_run _ path _ data []) by apply lookup_insert_eq.
    by rewrite insert_insert_eq.
Qed.

(** ** The accepted rows of a batch *)

Lemma same_key_refl (r : PriceRecord) : dated r -> same_key r r = true.
Proof. intros Hd. by apply same_key_spec. Qed.

Lemma key_dated (x y : PriceRecord) : key x = key y -> dated x -> dated y.
Proof. unfold key, dated. by intros [= _ <-]. Qed.

Lemma accepted_prefix (stored data : list PriceRecord) :
  accepted stored data `prefix_of` data.
Proof.
  revert stored. induction data as [|r rest IH]; intros stored; simpl.
  - done.
  - destruct (has_key stored r); [apply prefix_nil | by apply prefix_cons].
Qed.

Lemma accepted_take (stored data : list PriceRecord) :
  accepted stored data = take (length (accepted stored data)) data.
Proof.
  pose proof (accepted_prefix stored data) as Hpre.
  remember (accepted stored data) as a eqn:Ha. clear Ha.
  destruct Hpre as [rest ->]. by rewrite take_app_length.
Qed.

(** A second run over the same batch stops at its first row, when that
    row has a date: the row is stored by then. *)
Lemma accepted_again (stored data : list PriceRecord) :
  (forall r, head data = Some r -> dated r) ->
  accepted (stored ++ accepted stored data) data = [].
Proof.
  destruct data as [|r rest]; [reflexivity|]. intros Hd. simpl.
  destruct (has_key stored r) eqn:Hk.
  - by rewrite app_nil_r, Hk.
  - rewrite has_key_app. simpl.
    rewrite same_key_refl by (by apply Hd). by rewrite orb_true_r.
Qed.

(** A first row with a NaT date goes in at every run. *)
Lemma accepted_NaT_head (stored : list PriceRecord) (r : PriceRecord)
    (rest : list PriceRecord) :
  schema.date r = None ->
  accepted stored (r :: rest) = r :: accepted (stored ++ [r]) rest.
Proof. intros Hr. simpl. by rewrite has_key_NaT. Qed.

Lemma filter_dated_snoc (l : list PriceRecord) (r : PriceRecord) :
  filter dated (l ++ [r])
  = filter dated l ++ (if decide (dated r) then [r] else []).
Proof.
  rewrite filter_app. reflexivity.
Qed.

Lemma NoDup_filter_dated_cons (x : PriceRecord) (l : list PriceRecord) :
  NoDup (map key (filter dated (x :: l))) ->
  NoDup (map key (filter dated l))
  /\ (dated x -> key x ∉ map key (filter dated l)).
Proof.
  destruct (decide (dated x)) as [Hd|Hd].
  - rewrite filter_cons_True by done. cbn [map]. intros Hnd.
    apply NoDup_cons in Hnd as [Hx Hnd]. auto.
  - rewrite filter_cons_False by done. intros Hnd. split; [done|].
    intros Hd'. by destruct Hd.
Qed.

Lemma accepted_NoDup (stored data : list PriceRecord) :
  NoDup (map key (filter dated stored)) ->
  NoDup (map key (filter dated (stored ++ accepted stored data))).
Proof.
  revert stored. induction data as [|r rest IH]; intros stored Hnd; simpl.
  - by rewrite app_nil_r.
  - destruct (has_key stored r) eqn:Hk; [by rewrite app_nil_r|].
    replace (stored ++ r :: accepted (stored ++ [r]) rest)
      with ((stored ++ [r]) ++ accepted (stored ++ [r]) rest)
      by (by rewrite <- app_assoc).
    apply IH. rewrite filter_dated_snoc, map_app.
    destruct (decide (dated r)) as [Hd|Hd]; [|by rewrite app_nil_r].
    apply NoDup_app. split; [done|].
    split; [|apply NoDup_singleton].
    intros k Hin Hk'. apply list_elem_of_singleton in Hk' as ->.
    assert (Htaken : has_key stored r = true); [|congruence].
    apply has_key_spec. split; [done|].
    apply list_elem_of_fmap in Hin as [x [Hx Hin]].
    apply list_elem_of_filter in Hin as [_ Hin].
    apply list_elem_of_fmap. eauto.
Qed.

(** The rows before the first row whose key is taken are all accepted,
    and no row from that one on is. Only rows with a date have a key that
    can be taken. *)
Lemma accepted_until (stored pre : list PriceRecord) (r : PriceRecord)
    (post : list PriceRecord) :
  NoDup (map key (filter dated pre)) ->
  (forall x, x ∈ pre -> dated x -> key x ∉ map key stored) ->
  dated r ->
  key r ∈ map key (stored ++ pre) ->
  accepted stored (pre ++ r :: post) = pre.
Proof.
  revert stored. induction pre as [|x pre IH]; intros stored Hnd Hfresh Hd Hr.
  - simpl. rewrite app_nil_r in Hr.
    replace (has_key stored r) with true; [done|].
    symmetry. by apply has_key_spec.
  - simpl. destruct (has_key stored x) eqn:Hk.
    + apply has_key_spec in Hk as [Hdx Hk].
      exfalso. eapply Hfresh; [left|done|done].
    + f_equal. apply NoDup_filter_dated_cons in Hnd as [Hnd Hx].
      apply IH; [done| |done|by rewrite <- app_assoc].
      intros y Hy Hdy. rewrite map_app. simpl. intros Hin.
      apply elem_of_app in Hin as [Hin|Hin].
      * eapply Hfresh; [right; exact Hy|done|done].
      * apply list_elem_of_singleton in Hin.
        apply Hx; [by eapply key_dated|]. rewrite <- Hin.
        apply list_elem_of_fmap. exists y. split; [done|].
        by apply list_elem_of_filter.
Qed.

Lemma accepted_all (stored data : list PriceRecord) :
  NoDup (map key (filter dated data)) ->
  (forall x, x ∈ data -> dated x -> key x ∉ map key stored) ->
  accepted stored data = data.
Proof.
  revert stored. induction data as [|x data IH]; intros stored Hnd Hfresh.
  - reflexivity.
  - simpl. destruct (has_key stored x) eqn:Hk.
    + apply has_key_spec in Hk as [Hdx Hk].
      exfalso. eapply Hfresh; [left|done|done].
    + f_equal. apply NoDup_filter_dated_cons in Hnd as [Hnd Hx].
      apply IH; [done|].
      intros y Hy Hdy. rewrite map_app. simpl. intros Hin.
      apply elem_of_app in Hin as [Hin|Hin].
      * eapply Hfresh; [right; exact Hy|done|done].
      * apply list_elem_of_singleton in Hin.
        apply Hx; [by eapply key_dated|]. rewrite <- Hin.
        apply list_elem_of_fmap. exists y. split; [done|].
        by apply list_elem_of_filter.
Qed.



Lemma TimeSeries_rows_stored (w : world) (path : string)
    (recs : list PriceRecord) :
  files w !! path = Some (TimeSeries_db recs) ->
  TimeSeries_rows w path = Some (map tolist recs).
Proof. unfold TimeSeries_rows. by intros ->. Qed.

(** ** The claims on the store *)


(** C10: in a batch with a uniqueness violation, the rows before the
    first violating row are in the file after the call, and that row and
    the rows after it are not: the table is what it was, followed by
    those first rows. The first violating row [r] has a date and its
    (symbol, date) is stored or is that of an earlier row; among the rows
    before it those with a date have (symbol, date)s that are distinct
    and not stored. *)
Theorem C10_rows_before_violation_are_kept (w : world) (dbfilename : string)
    (recs pre : list PriceRecord) (r : PriceRecord)
    (post : list PriceRecord) :
  stored w dbfilename recs ->
  NoDup (map key (filter dated pre)) ->
  (forall x, x ∈ pre -> dated x -> key x ∉ map key recs) ->
  dated r ->
  key r ∈ map key (recs ++ pre) ->
  exists w',
    save_to_db (pre ++ r :: post) dbfilename w = (Ok (length pre), w')
    /\ files w' !! dbfilename = Some (TimeSeries_db (recs ++ pre))
    /\ TimeSeries_rows w' dbfilename
       = Some (map tolist recs ++ map tolist pre).
Proof.
  intros Hst Hnd Hfresh Hd Hr.
  destruct (save_to_db_spec w dbfilename (pre ++ r :: post) recs Hst)
    as [c1 H1].
  rewrite (accepted_until recs pre r post Hnd Hfresh Hd Hr) in H1.
  eexists. split; [exact H1|].
  assert (Hf : files (focus c1 dbfilename
                        (<[dbfilename := TimeSeries_db (recs ++ pre)]>
                           (files w)) None (length pre) true)
               !! dbfilename = Some (TimeSeries_db (recs ++ pre)))
    by (unfold focus; cbn [files]; by rewrite lookup_insert_eq).
  split; [exact Hf|].
  rewrite (TimeSeries_rows_stored _ _ _ Hf). by rewrite map_app.
Qed.


(** C7: [create_db] on a path that is there raises [IOError] and changes
    nothing; on a path that is not there it returns, and the file it
    leaves holds the three tables [TimeSeries], [Assets], [GicsSectors],
    all empty, and the unique index on [TimeSeries (Cd, Date)], no other
    file being touched. *)
Theorem C7_create_db (w : world) (filename : string) :
  (is_Some (files w !! filename) ->
     create_db filename w = (Raise IOError, w))
  /\ (files w !! filename = None ->
      exists w' db,
        create_db filename w = (Ok tt, w')
        /\ files w' = <[filename := db]> (files w)
        /\ (tables db).*1 = ["TimeSeries"; "Assets"; "GicsSectors"]
        /\ Forall (fun t => rows t.2 = []) (tables db)
        /\ indexes db
           = [("Idx_TimeSeries", mkindex "TimeSeries" ["Cd"; "Date"])]).
Proof.
  split.
  - apply create_db_exists.
  - intros Hnone. destruct w as [fs conns]. cbn [files] in *.
    eexists _, (TimeSeries_db []). split; [by apply create_db_run|].
    split; [reflexivity|]. split; [reflexivity|]. split; [|reflexivity].
    repeat constructor.
Qed.

(** ** Any sequence of calls *)

(** One call of the store, whatever it returns or raises. *)
Inductive step : world -> world -> Prop :=
  | step_create_db (filename : string) (w : world) :
      step w (create_db filename w).2
  | step_save_to_db (data : list PriceRecord) (dbfilename : string)
      (w : world) :
      step w (save_to_db data dbfilename w).2.

(** The worlds the store can be in, starting with no file at all. *)
Definition reachable (w : world) : Prop := rtc step (mkworld ∅ []) w.

(** Every file is a database of the source in which no two rows of
    [TimeSeries] that have a date have the same (symbol, date). *)
Definition unique_store (w : world) : Prop :=
  forall path db, files w !! path = Some db ->
    exists recs,
      db = TimeSeries_db recs /\ NoDup (map key (filter dated recs)).





Lemma unique_store_stored (w : world) (path : string) :
  unique_store w ->
  exists recs, stored w path recs /\ NoDup (map key (filter dated recs)).
Proof.
  intros Hinv. unfold stored.
  destruct (files w !! path) as [db|] eqn:Hf.
  - destruct (Hinv _ _ Hf) as [recs [-> Hnd]]. eauto.
  - exists []. split; [reflexivity | constructor].
Qed.

Lemma unique_store_create_db (w : world) (filename : string) :
  unique_store w -> unique_store (create_db filename w).2.
Proof.
  intros Hinv. destruct (files w !! filename) as [db|] eqn:Hf.
  - by rewrite create_db_exists by eauto.
  - destruct w as [fs conns]. cbn [files] in *.
    rewrite (create_db_run conns filename fs Hf). unfold focus. cbn [snd].
    intros p db. cbn [files]. rewrite lookup_insert.
    case_decide as Hp.
    + intros [= <-]. exists []. split; [reflexivity | constructor].
    + apply Hinv.
Qed.

Lemma unique_store_save_to_db (w : world) (dbfilename : string)
    (data : list PriceRecord) :
  unique_store w -> unique_store (save_to_db data dbfilename w).2.
Proof.
  intros Hinv.
  destruct (unique_store_stored w dbfilename Hinv) as [recs [Hst Hnd]].
  destruct (save_to_db_spec w dbfilename data recs Hst) as [c1 ->].
  unfold focus. cbn [snd]. intros p db. cbn [files]. rewrite lookup_insert.
  case_decide as Hp.
  - intros [= <-]. eexists. split; [reflexivity | by apply accepted_NoDup].
  - apply Hinv.
Qed.

Lemma reachable_unique_store (w : world) : reachable w -> unique_store w.
Proof.
  unfold reachable. revert w.
  apply (rtc_ind_r (fun w => unique_store w) (mkworld ∅ [])).
  - intros p db. cbn [files]. by rewrite lookup_empty.
  - intros w1 w2 Hreach Hstep IH. destruct Hstep.
    + by apply unique_store_create_db.
    + by apply unique_store_save_to_db.
Qed.


(** ** Which exceptions a call can raise *)

(** [m] never ends in [IOError], whatever the world. *)
Definition no_IOError {A} (m : M A) : Prop :=
  forall w, (m w).1 <> Raise IOError.

Lemma no_IOError_ret {A} (a : A) : no_IOError (ret a).
Proof. intros w. discriminate. Qed.

Lemma no_IOError_raise {A} (e : exn) : e <> IOError -> no_IOError (@raise A e).
Proof. intros He w. simpl. congruence. Qed.

Lemma no_IOError_bind {A B} (m : M A) (k : A -> M B) :
  no_IOError m -> (forall a, no_IOError (k a)) -> no_IOError (bind m k).
Proof.
  intros Hm Hk w. unfold bind. specialize (Hm w).
  destruct (m w) as [[a|e] w']; simpl in *; [apply Hk | congruence].
Qed.

Lemma no_IOError_try_except {A} (m : M A) (e : exn) (handler : M A) :
  no_IOError m -> no_IOError handler -> no_IOError (try_except m e handler).
Proof.
  intros Hm Hh w. unfold try_except. specialize (Hm w).
  destruct (m w) as [[a|e'] w']; simpl in *; [discriminate|].
  case_bool_decide; [apply Hh | simpl; congruence].
Qed.

Lemma no_IOError_with_connection {A} (conn : nat) (k : connection -> M A) :
  (forall c, no_IOError (k c)) -> no_IOError (with_connection conn k).
Proof.
  intros Hk w. unfold with_connection.
  destruct (connections w !! conn) as [c|]; [|discriminate].
  destruct (closed c); [discriminate | apply Hk].
Qed.

Lemma exec_no_IOError (db : database) (stmt : statement)
    (params : list value) :
  exec db stmt params <> Raise IOError.
Proof.
  unfold exec. destruct stmt; repeat case_match; discriminate.
Qed.

Lemma no_IOError_commit (conn : nat) : no_IOError (commit conn).
Proof.
  apply no_IOError_with_connection. intros c.
  destruct (transaction c); [|apply no_IOError_ret].
  apply no_IOError_bind; intros; intros w; discriminate.
Qed.

Lemma no_IOError_execute (conn : nat) (stmt : statement)
    (params : list value) :
  no_IOError (execute conn stmt params).
Proof.
  unfold execute. destruct (is_dml stmt).
  - apply no_IOError_with_connection. intros c.
    apply no_IOError_bind; [destruct (transaction c); intros w; discriminate|].
    intros db. apply no_IOError_bind; [intros w; discriminate|]. intros _.
    pose proof (exec_no_IOError db stmt params) as Hex.
    destruct (exec db stmt params) as [db'|e].
    + intros w. discriminate.
    + apply no_IOError_raise. congruence.
  - apply no_IOError_bind; [apply no_IOError_commit|]. intros _.
    apply no_IOError_with_connection. intros c.
    apply no_IOError_bind; [intros w; discriminate|]. intros db.
    pose proof (exec_no_IOError db stmt params) as Hex.
    destruct (exec db stmt params) as [db'|e].
    + intros w. discriminate.
    + apply no_IOError_raise. congruence.
Qed.

Lemma no_IOError_executemany (conn : nat) (stmt : statement)
    (seq_of_params : list (list value)) :
  no_IOError (executemany conn stmt seq_of_params).
Proof.
  unfold executemany. destruct (is_dml stmt);
    [|by apply no_IOError_raise].
  apply no_IOError_with_connection. intros c.
  apply no_IOError_bind; [destruct (transaction c); intros w; discriminate|].
  intros db. apply no_IOError_bind; [intros w; discriminate|]. intros _.
  assert (Hprep : prepare db stmt <> Raise IOError)
    by (unfold prepare; destruct stmt; repeat case_match; discriminate).
  destruct (prepare db stmt) as [[]|e];
    [|apply no_IOError_raise; congruence].
  induction seq_of_params as [|params rest IH]; simpl.
  - apply no_IOError_ret.
  - apply no_IOError_bind; [apply no_IOError_execute | intros _; exact IH].
Qed.

Lemma no_IOError_close (conn : nat) : no_IOError (close conn).
Proof.
  intros w. unfold close. destruct (connections w !! conn); discriminate.
Qed.

(** [save_to_db] on a path that is there: [create_db] is not called. *)
Lemma save_to_db_there_no_IOError (data : list PriceRecord)
    (dbfilename : string) (w : world) :
  is_Some (files w !! dbfilename) ->
  (save_to_db data dbfilename w).1 <> Raise IOError.
Proof.
  intros Hsome. unfold save_to_db.
  erewrite bind_Ok by apply os_path_exists_run.
  rewrite bool_decide_eq_true_2 by exact Hsome.
  revert w Hsome. intros w _. revert w.
  apply no_IOError_bind; [apply no_IOError_ret|]. intros _.
  apply no_IOError_bind; [intros w; discriminate|]. intros conn.
  apply no_IOError_bind;
    [apply no_IOError_with_connection; intros; apply no_IOError_ret|].
  intros c.
  apply no_IOError_bind;
    [apply no_IOError_try_except;
       [apply no_IOError_executemany | apply no_IOError_ret]|].
  intros _.
  apply no_IOError_bind; [apply no_IOError_commit|]. intros _.
  apply no_IOError_bind;
    [apply no_IOError_with_connection; intros; apply no_IOError_ret|].
  intros n.
  apply no_IOError_bind; [apply no_IOError_ret|]. intros _.
  apply no_IOError_bind; [apply no_IOError_close|]. intros _.
  apply no_IOError_ret.
Qed.

(** C8: [save_to_db] never raises the [IOError] of [create_db], in any
    world and for any batch: when the path is there [create_db] is not
    called, and when it is not there the call of [create_db] returns. *)
Theorem C8_save_never_raises_IOError (data : list PriceRecord)
    (dbfilename : string) (w : world) :
  (save_to_db data dbfilename w).1 <> Raise IOError
  /\ (files w !! dbfilename = None ->
      (create_db dbfilename w).1 = Ok tt
      /\ save_to_db data dbfilename w
         = save_to_db data dbfilename (create_db dbfilename w).2).
Proof.
  assert (Hfresh : files w !! dbfilename = None ->
            (create_db dbfilename w).1 = Ok tt
            /\ is_Some (files (create_db dbfilename w).2 !! dbfilename)).
  { intros Hnone. destruct w as [fs conns]. cbn [files] in Hnone.
    rewrite (create_db_run conns dbfilename fs Hnone). unfold focus.
    cbn [fst snd files]. rewrite lookup_insert_eq. eauto. }
  split.
  - destruct (files w !! dbfilename) as [db|] eqn:Hf.
    + apply save_to_db_there_no_IOError. rewrite Hf. eauto.
    + rewrite save_to_db_fresh by exact Hf.
      apply save_to_db_there_no_IOError. by apply Hfresh.
  - intros Hnone. split; [by apply Hfresh | by apply save_to_db_fresh].
Qed.

(** ** The claims at concrete inputs *)

(** Three records of the symbol ["ABC"]; [ABC_1_again] has the symbol and
    date of [ABC_1] and other prices. *)
Definition ABC_1 : PriceRecord :=
  mkPriceRecord "ABC" (Some (datetime.mkdate 2012 3 1))
                10 11.5 9.75 10.5 120000 10.5.
Definition ABC_2 : PriceRecord :=
  mkPriceRecord "ABC" (Some (datetime.mkdate 2012 3 2))
                10.5 12 10.25 11 98000 11.
Definition ABC_1_again : PriceRecord :=
  mkPriceRecord "ABC" (Some (datetime.mkdate 2012 3 1))
                20 21.5 19.75 20.5 5000 20.5.

(** Two records of ["ABC"] with a NaT date and different prices. *)
Definition ABC_NaT : PriceRecord :=
  mkPriceRecord "ABC" None 10 11.5 9.75 10.5 120000 10.5.
Definition ABC_NaT_again : PriceRecord :=
  mkPriceRecord "ABC" None 20 21.5 19.75 20.5 5000 20.5.

Definition no_files : world := mkworld ∅ [].

(** The store after the two NaT records were saved in one batch. *)
Definition NaT_store : world :=
  (save_to_db [ABC_NaT; ABC_NaT_again] "stocks.db" no_files).2.

(** The scenario of the specification: one record saved into a store that
    is not there gives 1, saved again gives 0, and the table holds one
    row. *)
Example save_twice_scenario :
  let run1 := save_to_db [ABC_1] "stocks.db" no_files in
  let run2 := save_to_db [ABC_1] "stocks.db" run1.2 in
  run1.1 = Ok 1%nat /\ run2.1 = Ok 0%nat
  /\ TimeSeries_count run1.2 "stocks.db" = Some 1%nat
  /\ TimeSeries_count run2.2 "stocks.db" = Some 1%nat.
Proof. vm_compute. repeat split. Qed.






Lemma C10_witness :
  stored no_files "stocks.db" []
  /\ NoDup (map key (filter dated [ABC_1; ABC_2]))
  /\ (forall x, x ∈ [ABC_1; ABC_2] -> dated x -> key x ∉ map key [])
  /\ dated ABC_1_again
  /\ key ABC_1_again ∈ map key ([] ++ [ABC_1; ABC_2])
  /\ exists w',
       save_to_db ([ABC_1; ABC_2] ++ ABC_1_again :: [ABC_2]) "stocks.db"
                  no_files
       = (Ok (length [ABC_1; ABC_2]), w')
       /\ files w' !! "stocks.db"
          = Some (TimeSeries_db ([] ++ [ABC_1; ABC_2]))
       /\ TimeSeries_rows w' "stocks.db"
          = Some (map tolist [] ++ map tolist [ABC_1; ABC_2]).
Proof.
  assert (H1 : stored no_files "stocks.db" []) by reflexivity.
  assert (H2 : NoDup (map key (filter dated [ABC_1; ABC_2])))
    by compute_done.
  assert (H3 : forall x, x ∈ [ABC_1; ABC_2] -> dated x -> key x ∉ map key [])
    by (intros x _ _ H; by apply elem_of_nil in H).
  assert (Hd : dated ABC_1_again) by (by eexists).
  assert (H4 : key ABC_1_again ∈ map key ([] ++ [ABC_1; ABC_2]))
    by apply list_elem_of_here.
  split; [exact H1|]. split; [exact H2|]. split; [exact H3|].
  split; [exact Hd|]. split; [exact H4|].
  exact (C10_rows_before_violation_are_kept no_files "stocks.db" []
           [ABC_1; ABC_2] ABC_1_again [ABC_2] H1 H2 H3 Hd H4).
Defined.

(** ** The calendar *)

Section Calendar.

Import datetime.

Lemma dby_formula a b c d :
0 <= a -> 0 <= b <= 3 -> 0 <= c <= 24 -> 0 <= d <= 3 ->
days_before_year (400 * a + 100 * b + 4 * c + d + 1)
= 146097 * a + 36524 * b + 1461 * c + 365 * d.
Proof.
intros. unfold days_before_year. cbv zeta.
replace (400 * a + 100 * b + 4 * c + d + 1 - 1) with (400 * a + 100 * b + 4 * c + d) by lia.
Z.div_mod_to_equations; lia.
Qed.

Lemma is_leap_formula a b c d :
0 <= a -> 0 <= b <= 3 -> 0 <= c <= 24 -> 0 <= d <= 3 ->
is_leap (400 * a + 100 * b + 4 * c + d + 1)
= (d =? 3) && (negb (c =? 24) || (b =? 3)).
Proof.
intros. unfold is_leap.
destruct (Z.eqb_spec d 3), (Z.eqb_spec c 24), (Z.eqb_spec b 3),
  (Z.eqb_spec ((400 * a + 100 * b + 4 * c + d + 1) mod 4) 0),
  (Z.eqb_spec ((400 * a + 100 * b + 4 * c + d + 1) mod 100) 0),
  (Z.eqb_spec ((400 * a + 100 * b + 4 * c + d + 1) mod 400) 0);
  simpl; try reflexivity; exfalso; Z.div_mod_to_equations; lia.
Qed.

(** What is asked of [month_day] on day [r] of a year. *)
Definition month_day_check (leap : bool) (r : Z) : bool :=
let '(m, d) := month_day leap r in
(DAYS_BEFORE_MONTH m + (if (2 <? m) && leap then 1 else 0) + d =? r + 1)
&& (1 <=? m) && (m <=? 12) && (1 <=? d)
&& (d <=? (if (m =? 2) && leap then 29 else DAYS_IN_MONTH m)).

Lemma month_day_checked leap : forallb (month_day_check leap) (seqZ 0 365) = true.
Proof. destruct leap; vm_compute; reflexivity. Qed.

Lemma month_day_ok leap r : 0 <= r < 365 -> month_day_check leap r = true.
Proof.
intros Hr. pose proof (month_day_checked leap) as H.
rewrite forallb_forall in H. apply H. apply list_elem_of_In, elem_of_seqZ. lia.
Qed.

Lemma ord2ymd_spec n : 1 <= n ->
exists a b c d r,
  n - 1 = 146097 * a + 36524 * b + 1461 * c + 365 * d + r
  /\ 0 <= a /\ 0 <= b <= 4 /\ 0 <= c <= 24 /\ 0 <= d <= 4 /\ 0 <= r < 365
  /\ (b = 4 -> c = 0 /\ d = 0 /\ r = 0)
  /\ (d = 4 -> c <= 23 /\ r = 0)
  /\ ord2ymd n =
     let y := a * 400 + 1 + b * 100 + c * 4 + d in
     if (d =? 4) || (b =? 4) then mkdate (y - 1) 12 31
     else let '(m, dd) := month_day ((d =? 3) && (negb (c =? 24) || (b =? 3))) r in mkdate y m dd.
Proof.
intros Hn. unfold ord2ymd, DI400Y, DI100Y, DI4Y. cbv zeta.
set (z := n - 1).
set (a := z / 146097). set (r1 := z mod 146097).
set (b := r1 / 36524). set (r2 := r1 mod 36524).
set (c := r2 / 1461). set (r3 := r2 mod 1461).
set (d := r3 / 365). set (r := r3 mod 365).
exists a, b, c, d, r.
assert (0 <= z) by (unfold z; lia).
repeat split; try reflexivity; unfold r, d, r3, c, r2, b, r1, a in *; clearbody z;
 Z.div_mod_to_equations; lia.
Qed.

Lemma toordinal_fromordinal n : 1 <= n -> toordinal (fromordinal n) = n.
Proof.
intros Hn. unfold fromordinal.
destruct (ord2ymd_spec n Hn)
  as (a & b & c & d & r & Hz & Ha & Hb & Hc & Hd & Hr & Hb4 & Hd4 & ->).
cbv zeta.
destruct (Z.eqb_spec d 4) as [->|Hd'].
- destruct (Hd4 eq_refl) as [Hc' ->]. simpl orb. cbv iota.
  assert (b <> 4) by (intros ->; destruct (Hb4 eq_refl) as (_ & ? & _); lia).
  unfold toordinal, ymd2ord, days_before_month. simpl year. simpl month. simpl day.
  replace (a * 400 + 1 + b * 100 + c * 4 + 4 - 1)
    with (400 * a + 100 * b + 4 * c + 3 + 1) by lia.
  rewrite dby_formula, is_leap_formula by lia.
  destruct (Z.eqb_spec c 24); [lia|]. simpl. lia.
- destruct (Z.eqb_spec b 4) as [->|Hb'].
  + destruct (Hb4 eq_refl) as (-> & -> & ->). simpl orb. cbv iota.
    unfold toordinal, ymd2ord, days_before_month. simpl year. simpl month. simpl day.
    replace (a * 400 + 1 + 4 * 100 + 0 * 4 + 0 - 1)
      with (400 * a + 100 * 3 + 4 * 24 + 3 + 1) by lia.
    rewrite dby_formula, is_leap_formula by lia. simpl. lia.
  + simpl orb. cbv iota.
    set (leap := (d =? 3) && (negb (c =? 24) || (b =? 3))).
    pose proof (month_day_ok leap r Hr) as Hmd.
    unfold month_day_check in Hmd.
    destruct (month_day leap r) as [m dd].
    rewrite !andb_true_iff in Hmd. destruct Hmd as [[[[Hsum _] _] _] _].
    apply Z.eqb_eq in Hsum.
    unfold toordinal, ymd2ord, days_before_month. simpl year. simpl month. simpl day.
    replace (a * 400 + 1 + b * 100 + c * 4 + d)
      with (400 * a + 100 * b + 4 * c + d + 1) by lia.
    rewrite dby_formula, is_leap_formula by lia. fold leap. lia.
Qed.

Lemma fromordinal_valid n : 1 <= n <= MAXORDINAL -> valid (fromordinal n) = true.
Proof.
intros [Hn Hmax]. unfold fromordinal, MAXORDINAL in *.
destruct (ord2ymd_spec n Hn)
  as (a & b & c & d & r & Hz & Ha & Hb & Hc & Hd & Hr & Hb4 & Hd4 & ->).
cbv zeta. unfold valid, MINYEAR, MAXYEAR.
destruct (Z.eqb_spec d 4) as [->|Hd'].
- destruct (Hd4 eq_refl) as [Hc' ->]. simpl orb. cbv iota.
  assert (b <> 4) by (intros ->; destruct (Hb4 eq_refl) as (_ & ? & _); lia).
  simpl year. simpl month. simpl day. unfold days_in_month. simpl.
  rewrite !andb_true_iff, !Z.leb_le. lia.
- destruct (Z.eqb_spec b 4) as [->|Hb'].
  + destruct (Hb4 eq_refl) as (-> & -> & ->). simpl orb. cbv iota.
    simpl year. simpl month. simpl day. unfold days_in_month. simpl.
    rewrite !andb_true_iff, !Z.leb_le. lia.
  + simpl orb. cbv iota.
    set (leap := (d =? 3) && (negb (c =? 24) || (b =? 3))).
    pose proof (month_day_ok leap r Hr) as Hmd.
    unfold month_day_check in Hmd.
    destruct (month_day leap r) as [m dd].
    rewrite !andb_true_iff in Hmd.
    destruct Hmd as [[[[_ Hm1] Hm2] Hd1] Hd2].
    simpl year. simpl month. simpl day. unfold days_in_month.
    replace (a * 400 + 1 + b * 100 + c * 4 + d)
      with (400 * a + 100 * b + 4 * c + d + 1) by lia.
    rewrite is_leap_formula by lia. fold leap.
    rewrite Hm1, Hm2, Hd1, Hd2, !andb_true_r.
    rewrite !andb_true_iff, !Z.leb_le. lia.
Qed.

Lemma dby_succ y : 1 <= y ->
days_before_year (y + 1) = days_before_year y + 365 + (if is_leap y then 1 else 0).
Proof.
intros. unfold days_before_year, is_leap. cbv zeta.
replace (y + 1 - 1) with y by lia.
destruct (Z.eqb_spec (y mod 4) 0), (Z.eqb_spec (y mod 100) 0), (Z.eqb_spec (y mod 400) 0); simpl;
(Z.div_mod_to_equations; lia).
Qed.

Lemma dby_bound y : 1 <= y <= 10000 -> 0 <= days_before_year y <= 3652059.
Proof.
intros. unfold days_before_year. cbv zeta.
(Z.div_mod_to_equations; lia).
Qed.

Lemma toordinal_bounds d : valid d = true -> 1 <= toordinal d <= MAXORDINAL.
Proof.
destruct d as [y m d]. unfold valid, toordinal, ymd2ord, MINYEAR, MAXYEAR, MAXORDINAL.
simpl year. simpl month. simpl day.
rewrite !andb_true_iff, !Z.leb_le. intros [[[[[Hy1 Hy2] Hm1] Hm2] Hd1] Hd2].
pose proof (dby_bound y ltac:(lia)) as Hb.
pose proof (dby_bound (y + 1) ltac:(lia)) as Hb'.
rewrite dby_succ in Hb' by lia.
unfold days_before_month, days_in_month in *.
assert (Hm : m = 1 \/ m = 2 \/ m = 3 \/ m = 4 \/ m = 5 \/ m = 6 \/ m = 7
             \/ m = 8 \/ m = 9 \/ m = 10 \/ m = 11 \/ m = 12) by lia.
destruct (is_leap y);
  destruct Hm as [->|[->|[->|[->|[->|[->|[->|[->|[->|[->|[->| ->]]]]]]]]]]];
  simpl in *; lia.
Qed.

End Calendar.

(** ** The dates of the request *)

Lemma new_valid (ymd : Z * Z * Z) (d : datetime.date) :
  datetime.new ymd = Ok d -> datetime.valid d = true.
Proof.
  destruct ymd as [[y m] dd]. unfold datetime.new.
  destruct (datetime.valid (datetime.mkdate y m dd)) eqn:Hv; [|discriminate].
  by intros [= <-].
Qed.

Lemma sub_days_run (d : datetime.date) (days : Z) :
  datetime.valid d = true -> 0 <= days < datetime.toordinal d ->
  datetime.sub_days d days
  = Ok (datetime.fromordinal (datetime.toordinal d - days)).
Proof.
  intros Hv Hdays. apply toordinal_bounds in Hv. unfold datetime.sub_days.
  cbv zeta.
  replace (0 <? datetime.toordinal d - days) with true
    by (symmetry; apply Z.ltb_lt; lia).
  replace (datetime.toordinal d - days <=? datetime.MAXORDINAL) with true
    by (symmetry; apply Z.leb_le; lia).
  reflexivity.
Qed.

Section FetcherFacts.

Variable py_float : string -> option float.
Variable np_datetime64 : string -> option datetime64.
Variable strptime : string -> string -> option datetime.date.
Variable localtime : Z * Z * Z.
Variable urlopen : string -> result (list string).

Local Abbreviation prices :=
  (get_yahoo_prices py_float np_datetime64 strptime localtime urlopen).
Local Abbreviation fetch := (fetch_and_parse py_float np_datetime64 urlopen).

(** C9, as the source has it: with no start date the request starts 365
    days before the local calendar day (which is not always the same day
    of the year before), with no end date it ends the day before the
    local calendar day; a start or end string that [strptime] does not
    accept under the date format makes the call raise [ValueError]. *)
Theorem C9_default_dates_and_format_errors (symbol period datefmt : string)
    (today : datetime.date) :
  datetime.new localtime = Ok today ->
  365 < datetime.toordinal today ->
  let lastyeardate :=
    datetime.fromordinal (datetime.toordinal today - 365) in
  let yesterdate := datetime.fromordinal (datetime.toordinal today - 1) in
  prices symbol None None period datefmt
    = fetch symbol lastyeardate yesterdate period
  /\ datetime.toordinal lastyeardate = datetime.toordinal today - 365
  /\ datetime.toordinal yesterdate = datetime.toordinal today - 1
  /\ datetime.valid lastyeardate = true
  /\ datetime.valid yesterdate = true
  /\ (forall s enddate, strptime s datefmt = None ->
        prices symbol (Some s) enddate period datefmt = Raise ValueError)
  /\ (forall s startdate, strptime s datefmt = None ->
        prices symbol startdate (Some s) period datefmt = Raise ValueError)
  /\ (forall s d, strptime s datefmt = Some d ->
        prices symbol (Some s) None period datefmt
        = fetch symbol d yesterdate period)
  /\ (forall s d, strptime s datefmt = Some d ->
        prices symbol None (Some s) period datefmt
        = fetch symbol lastyeardate d period).
Proof.
  intros Hnew Hord lastyeardate yesterdate.
  pose proof (new_valid _ _ Hnew) as Hv.
  pose proof (toordinal_bounds _ Hv) as Hb.
  assert (Hy : datetime.sub_days today 1 = Ok yesterdate)
    by (apply sub_days_run; [done | lia]).
  assert (Hl : datetime.sub_days today 365 = Ok lastyeardate)
    by (apply sub_days_run; [done | lia]).
  assert (Hrun : forall startdate enddate,
            prices symbol startdate enddate period datefmt
            = (sd <- resolve_date strptime startdate datefmt lastyeardate ;;
               ed <- resolve_date strptime enddate datefmt yesterdate ;;
               fetch symbol sd ed period)%result).
  { intros sd ed. unfold get_yahoo_prices.
    rewrite Hnew. cbn [rbind]. rewrite Hy. cbn [rbind]. rewrite Hl.
    reflexivity. }
  split; [by rewrite Hrun|].
  split; [apply toordinal_fromordinal; lia|].
  split; [apply toordinal_fromordinal; lia|].
  split; [apply fromordinal_valid; lia|].
  split; [apply fromordinal_valid; lia|].
  split; [|split; [|split]].
  - intros s ed Hs. rewrite Hrun. simpl. by rewrite Hs.
  - intros s sd Hs. rewrite Hrun.
    destruct sd as [s0|]; simpl; [|by rewrite Hs].
    destruct (strptime s0 datefmt); simpl; [by rewrite Hs | reflexivity].
  - intros s d Hs. rewrite Hrun. simpl. by rewrite Hs.
  - intros s d Hs. rewrite Hrun. simpl. by rewrite Hs.
Qed.

End FetcherFacts.

(** C9 as the specification words it fails on 2012-03-01: the request
    made with no dates starts on 2011-03-02, the day 365 days before, and
    not on 2011-03-01, the same day one year before. A server that answers
    the first request alone is answered; one that answers the second alone
    is not. *)
Lemma C9_365_days_before_is_not_one_year_before :
  datetime.sub_days (datetime.mkdate 2012 3 1) 365
  = Ok (datetime.mkdate 2011 3 2)
  /\ get_yahoo_prices (fun _ => None) (fun _ => None) (fun _ _ => None)
       (2012, 3, 1)
       (fun url =>
          if String.eqb url
               ("http://ichart.finance.yahoo.com/table.csv?s=ABC"
                +:+ "&a=2&b=2&c=2011&d=1&e=29&f=2012&y=0&g=d&ignore=.csv")
          then Ok [] else Raise IOError)
       "ABC" None None "d" "%Y-%m-%d"
     = Ok []
  /\ get_yahoo_prices (fun _ => None) (fun _ => None) (fun _ _ => None)
       (2012, 3, 1)
       (fun url =>
          if String.eqb url
               ("http://ichart.finance.yahoo.com/table.csv?s=ABC"
                +:+ "&a=2&b=1&c=2011&d=1&e=29&f=2012&y=0&g=d&ignore=.csv")
          then Ok [] else Raise IOError)
       "ABC" None None "d" "%Y-%m-%d"
     = Raise IOError.
Proof. repeat split; vm_compute; reflexivity. Qed.

Lemma C9_witness :
  datetime.new (2012, 3, 1) = Ok (datetime.mkdate 2012 3 1)
  /\ 365 < datetime.toordinal (datetime.mkdate 2012 3 1)
  /\ get_yahoo_prices (fun _ => None) (fun _ => None) (fun _ _ => None)
       (2012, 3, 1) (fun _ => Ok []) "ABC" None None "d" "%Y-%m-%d"
     = fetch_and_parse (fun _ => None) (fun _ => None) (fun _ => Ok []) "ABC"
         (datetime.fromordinal
            (datetime.toordinal (datetime.mkdate 2012 3 1) - 365))
         (datetime.fromordinal
            (datetime.toordinal (datetime.mkdate 2012 3 1) - 1))
         "d".
Proof.
  assert (H1 : datetime.new (2012, 3, 1) = Ok (datetime.mkdate 2012 3 1))
    by reflexivity.
  assert (H2 : 365 < datetime.toordinal (datetime.mkdate 2012 3 1))
    by (vm_compute; reflexivity).
  split; [exact H1|]. split; [exact H2|].
  exact (proj1 (C9_default_dates_and_format_errors
                  (fun _ => None) (fun _ => None) (fun _ _ => None)
                  (2012, 3, 1) (fun _ => Ok []) "ABC" "d" "%Y-%m-%d"
                  (datetime.mkdate 2012 3 1) H1 H2)).
Defined.

(** A response of four lines read with a [float] and a date conversion
    that know the fields used here: the header and the line without seven
    fields are left out, the symbol is cut to eight bytes. *)
Definition float_of_sample (s : string) : option float :=
  if String.eqb s "10" then Some 10%float
  else if String.eqb s "10.5" then Some 10.5%float
  else if String.eqb s "120000" then Some 120000%float
  else None.

Definition date_of_sample (s : string) : option datetime64 :=
  if String.eqb s "2012-03-01" then Some (Some (datetime.mkdate 2012 3 1))
  else if String.eqb s "2012-03-02" then Some (Some (datetime.mkdate 2012 3 2))
  else if String.eqb s "" then Some None
  else if String.eqb s "NaT" then Some None
  else None.

Definition newline : string := String "010"%char EmptyString.

Example parse_response_sample :
  parse_response float_of_sample date_of_sample "ABCDEFGHIJ"
    [ "Date,Open,High,Low,Close,Volume,Adj Close" +:+ newline;
      "2012-03-02,10,10.5,10,10.5,120000,10.5" +:+ newline;
      "<!-- no data -->" +:+ newline;
      "2012-03-01,10,10,10,10,120000,10" +:+ newline ]
  = Ok [ mkPriceRecord "ABCDEFGH" (Some (datetime.mkdate 2012 3 2))
                       10 10.5 10 10.5 120000 10.5;
         mkPriceRecord "ABCDEFGH" (Some (datetime.mkdate 2012 3 1))
                       10 10 10 10 120000 10 ].
Proof. vm_compute. reflexivity. Qed.

(** A seven-field line whose date field is empty gives a record with a
    NaT date. *)
Example parse_response_empty_date :
  parse_response float_of_sample date_of_sample "ABC"
    [ "Date,Open,High,Low,Close,Volume,Adj Close" +:+ newline;
      ",10,10.5,10,10.5,120000,10.5" +:+ newline ]
  = Ok [ mkPriceRecord "ABC" None 10 10.5 10 10.5 120000 10.5 ].
Proof. vm_compute. reflexivity. Qed.

(** A seven-field line with a field that is no number makes the whole
    call fail. *)
Example parse_response_bad_number :
  parse_response float_of_sample date_of_sample "ABC"
    [ "Date,Open,High,Low,Close,Volume,Adj Close" +:+ newline;
      "2012-03-02,10,n/a,10,10.5,120000,10.5" +:+ newline ]
  = Raise ValueError.
Proof. vm_compute. reflexivity. Qed.

(** * Further properties *)

(** ** [save_to_db] on a store of the source *)

(** As [save_to_db_spec], with the connections: the call appends the
    connections it opened, each on [path], closed, with no transaction
    left open. *)
Lemma save_to_db_spec_connections (w : world) (path : string)
    (data recs : list PriceRecord) :
  stored w path recs ->
  exists opened,
    save_to_db data path w
    = (Ok (length (accepted recs data)),
       mkworld
         (<[path := TimeSeries_db (recs ++ accepted recs data)]> (files w))
         (connections w ++ opened))
    /\ Forall (fun c => database_file c = path /\ transaction c = None
                        /\ closed c = true) opened.
Proof.
  unfold stored. destruct (files w !! path) as [db|] eqn:Hfile.
  - intros ->. destruct w as [fs conns]. cbn [files connections] in *.
    eexists [_]. split; [by apply save_to_db_run|].
    repeat constructor.
  - intros ->. rewrite save_to_db_fresh by exact Hfile.
    destruct w as [fs conns]. cbn [files connections] in *.
    rewrite (create_db_run conns path fs Hfile). cbn [snd]. unfold focus at 1.
    eexists [_; _]. split.
    + rewrite (save_to_db_run _ path _ data []) by apply lookup_insert_eq.
      unfold focus. rewrite insert_insert_eq, <- app_assoc. reflexivity.
    + repeat constructor.
Qed.

Lemma TimeSeries_count_stored (w : world) (path : string)
    (recs : list PriceRecord) :
  files w !! path = Some (TimeSeries_db recs) ->
  TimeSeries_count w path = Some (length recs).
Proof.
  intros Hf. unfold TimeSeries_count.
  rewrite (TimeSeries_rows_stored _ _ _ Hf). simpl. by rewrite length_map.
Qed.

(** X1: the number [save_to_db] returns is the number of rows the call
    added: the table is what it was followed by the first [n] rows of the
    batch, in the order of the batch, and no row is added that is not one
    of these. *)
Theorem save_to_db_returns_rows_added (w : world) (dbfilename : string)
    (data recs : list PriceRecord) :
  stored w dbfilename recs ->
  exists n w',
    save_to_db data dbfilename w = (Ok n, w')
    /\ (n <= length data)%nat
    /\ files w' !! dbfilename = Some (TimeSeries_db (recs ++ take n data))
    /\ TimeSeries_count w' dbfilename = Some (length recs + n)%nat.
Proof.
  intros Hst.
  destruct (save_to_db_spec_connections w dbfilename data recs Hst)
    as [opened [H1 _]].
  eexists _, _. split; [exact H1|].
  split; [apply prefix_length, accepted_prefix|].
  assert (Hf : files (mkworld
                        (<[dbfilename :=
                             TimeSeries_db (recs ++ accepted recs data)]>
                           (files w)) (connections w ++ opened))
               !! dbfilename
               = Some (TimeSeries_db
                         (recs ++ take (length (accepted recs data)) data))).
  { cbn [files]. by rewrite lookup_insert_eq, <- accepted_take. }
  split; [exact Hf|].
  rewrite (TimeSeries_count_stored _ _ _ Hf), length_app, <- accepted_take.
  reflexivity.
Qed.

Lemma save_to_db_returns_rows_added_witness :
  stored no_files "stocks.db" []
  /\ exists n w',
       save_to_db [ABC_1; ABC_2; ABC_1_again] "stocks.db" no_files = (Ok n, w')
       /\ (n <= length [ABC_1; ABC_2; ABC_1_again])%nat
       /\ files w' !! "stocks.db"
          = Some (TimeSeries_db ([] ++ take n [ABC_1; ABC_2; ABC_1_again]))
       /\ TimeSeries_count w' "stocks.db" = Some (0 + n)%nat.
Proof.
  assert (H : stored no_files "stocks.db" []) by reflexivity.
  split; [exact H|].
  exact (save_to_db_returns_rows_added no_files "stocks.db"
           [ABC_1; ABC_2; ABC_1_again] [] H).
Defined.

(** X2: a batch in which the records that have a date have (symbol,
    date) keys that are pairwise distinct and not in the table is stored
    whole, in order, and its length is returned. *)
Theorem save_to_db_stores_fresh_batch (w : world) (dbfilename : string)
    (data recs : list PriceRecord) :
  stored w dbfilename recs ->
  NoDup (map key (filter dated data)) ->
  (forall x, x ∈ data -> dated x -> key x ∉ map key recs) ->
  exists w',
    save_to_db data dbfilename w = (Ok (length data), w')
    /\ files w' !! dbfilename = Some (TimeSeries_db (recs ++ data)).
Proof.
  intros Hst Hnd Hfresh.
  destruct (save_to_db_spec_connections w dbfilename data recs Hst)
    as [opened [H1 _]].
  rewrite (accepted_all recs data Hnd Hfresh) in H1.
  eexists. split; [exact H1|]. cbn [files]. by rewrite lookup_insert_eq.
Qed.

Lemma save_to_db_stores_fresh_batch_witness :
  stored no_files "stocks.db" []
  /\ NoDup (map key (filter dated [ABC_1; ABC_2]))
  /\ (forall x, x ∈ [ABC_1; ABC_2] -> dated x -> key x ∉ map key [])
  /\ exists w',
       save_to_db [ABC_1; ABC_2] "stocks.db" no_files
       = (Ok (length [ABC_1; ABC_2]), w')
       /\ files w' !! "stocks.db" = Some (TimeSeries_db ([] ++ [ABC_1; ABC_2])).
Proof.
  assert (H1 : stored no_files "stocks.db" []) by reflexivity.
  assert (H2 : NoDup (map key (filter dated [ABC_1; ABC_2])))
    by compute_done.
  assert (H3 : forall x, x ∈ [ABC_1; ABC_2] -> dated x -> key x ∉ map key [])
    by (intros x _ _ H; by apply elem_of_nil in H).
  split; [exact H1|]. split; [exact H2|]. split; [exact H3|].
  exact (save_to_db_stores_fresh_batch no_files "stocks.db"
           [ABC_1; ABC_2] [] H1 H2 H3).
Defined.

(** X3: an empty batch. [save_to_db] returns 0; on a path that is not
    there it still creates the database, with its tables empty; on a store
    that is there it leaves every file as it is. *)
Theorem save_to_db_empty_batch (w : world) (dbfilename : string) :
  (files w !! dbfilename = None ->
   exists w', save_to_db [] dbfilename w = (Ok 0%nat, w')
              /\ files w' = <[dbfilename := TimeSeries_db []]> (files w)
              /\ TimeSeries_count w' dbfilename = Some 0%nat)
  /\ (forall recs, files w !! dbfilename = Some (TimeSeries_db recs) ->
      exists w', save_to_db [] dbfilename w = (Ok 0%nat, w')
                 /\ files w' = files w).
Proof.
  split.
  - intros Hnone.
    assert (Hst : stored w dbfilename []) by (unfold stored; by rewrite Hnone).
    destruct (save_to_db_spec_connections w dbfilename [] [] Hst)
      as [opened [H1 _]].
    eexists. split; [exact H1|]. split; [reflexivity|].
    apply (TimeSeries_count_stored _ _ []). cbn [files].
    by rewrite lookup_insert_eq.
  - intros recs Hf.
    assert (Hst : stored w dbfilename recs) by (unfold stored; by rewrite Hf).
    destruct (save_to_db_spec_connections w dbfilename [] recs Hst)
      as [opened [H1 _]].
    eexists. split; [exact H1|]. cbn [files accepted].
    rewrite app_nil_r. by apply insert_id.
Qed.

(** X4: what [save_to_db] leaves besides its table: every other file is
    as it was, the connections that were there are as they were, and the
    connections the call opened are closed with no transaction open. *)
Theorem save_to_db_frame (w : world) (dbfilename : string)
    (data recs : list PriceRecord) :
  stored w dbfilename recs ->
  exists n w' opened,
    save_to_db data dbfilename w = (Ok n, w')
    /\ (forall other, other <> dbfilename ->
          files w' !! other = files w !! other)
    /\ connections w' = connections w ++ opened
    /\ Forall (fun c => database_file c = dbfilename
                        /\ transaction c = None /\ closed c = true) opened.
Proof.
  intros Hst.
  destruct (save_to_db_spec_connections w dbfilename data recs Hst)
    as [opened [H1 Hop]].
  eexists _, _, opened. split; [exact H1|].
  split; [|split; [reflexivity | exact Hop]].
  intros other Hne. cbn [files]. by rewrite lookup_insert_ne.
Qed.

Lemma save_to_db_frame_witness :
  stored no_files "stocks.db" []
  /\ exists n w' opened,
       save_to_db [ABC_1] "stocks.db" no_files = (Ok n, w')
       /\ (forall other, other <> "stocks.db" ->
             files w' !! other = files no_files !! other)
       /\ connections w' = connections no_files ++ opened
       /\ Forall (fun c => database_file c = "stocks.db"
                           /\ transaction c = None /\ closed c = true) opened.
Proof.
  assert (H : stored no_files "stocks.db" []) by reflexivity.
  split; [exact H|].
  exact (save_to_db_frame no_files "stocks.db" [ABC_1] [] H).
Defined.

(** X17: a batch whose first record has a NaT date is never refused at
    that record: on a store of the source every run of [save_to_db] stores
    it, after the rows that were there, and returns at least 1. *)
Theorem save_to_db_NaT_head_is_stored (w : world) (dbfilename : string)
    (recs rest : list PriceRecord) (r : PriceRecord) :
  stored w dbfilename recs ->
  schema.date r = None ->
  exists n w' more,
    save_to_db (r :: rest) dbfilename w = (Ok (S n), w')
    /\ files w' !! dbfilename = Some (TimeSeries_db (recs ++ r :: more))
    /\ TimeSeries_count w' dbfilename = Some (length recs + S n)%nat.
Proof.
  intros Hst Hr.
  destruct (save_to_db_spec_connections w dbfilename (r :: rest) recs Hst)
    as [opened [H1 _]].
  rewrite (accepted_NaT_head recs r rest Hr) in H1.
  eexists _, _, _. split; [exact H1|].
  assert (Hf : files (mkworld
                        (<[dbfilename :=
                             TimeSeries_db
                               (recs ++ r :: accepted (recs ++ [r]) rest)]>
                           (files w)) (connections w ++ opened))
               !! dbfilename
               = Some (TimeSeries_db
                         (recs ++ r :: accepted (recs ++ [r]) rest)))
    by (cbn [files]; by rewrite lookup_insert_eq).
  split; [exact Hf|].
  rewrite (TimeSeries_count_stored _ _ _ Hf), length_app. reflexivity.
Qed.

Lemma save_to_db_NaT_head_is_stored_witness :
  stored NaT_store "stocks.db" [ABC_NaT; ABC_NaT_again]
  /\ schema.date ABC_NaT = None
  /\ exists n w' more,
       save_to_db (ABC_NaT :: [ABC_1]) "stocks.db" NaT_store = (Ok (S n), w')
       /\ files w' !! "stocks.db"
          = Some (TimeSeries_db ([ABC_NaT; ABC_NaT_again] ++ ABC_NaT :: more))
       /\ TimeSeries_count w' "stocks.db"
          = Some (length [ABC_NaT; ABC_NaT_again] + S n)%nat.
Proof.
  assert (H1 : stored NaT_store "stocks.db" [ABC_NaT; ABC_NaT_again])
    by (vm_compute; reflexivity).
  assert (H2 : schema.date ABC_NaT = None) by reflexivity.
  split; [exact H1|]. split; [exact H2|].
  exact (save_to_db_NaT_head_is_stored NaT_store "stocks.db"
           [ABC_NaT; ABC_NaT_again] [ABC_1] ABC_NaT H1 H2).
Defined.

(** ** [save_to_db] on any file *)

Lemma exec_INSERT_raises (db : database) (r : PriceRecord) (e : exn) :
  exec db INSERT_INTO_TimeSeries (tolist r) = Raise e ->
  e = OperationalError \/ e = IntegrityError.
Proof.
  unfold exec, INSERT_INTO_TimeSeries.
  destruct (assoc "TimeSeries" (tables db)) as [t|]; [|intros [= <-]; by left].
  destruct (negb (forallb (has_column t) _)); [intros [= <-]; by left|].
  replace (length (tolist r) =? _)%nat with true by (by destruct r).
  cbn [negb]. destruct (violates_unique _ _ _ _); [|discriminate].
  intros [= <-]. by right.
Qed.

Section AnyFile.

Variable fs : gmap string database.
Variable conns : list connection.
Variable path : string.

Local Abbreviation W := (focus conns path).
Local Abbreviation conn := (length conns).

(** The loop of [executemany] on any file: it ends normally or in one of
    two errors, and touches the connection only. *)
Lemma executemany_loop_any (data : list PriceRecord)
    (tx : option database) (n : nat) :
  exists r tx' n',
    executemany_loop conn INSERT_INTO_TimeSeries (map tolist data)
                     (W fs tx n false)
    = (r, W fs tx' n' false)
    /\ (r = Ok tt \/ r = Raise OperationalError \/ r = Raise IntegrityError).
Proof.
  revert tx n. induction data as [|r rest IH]; intros tx n.
  - exists (Ok tt), tx, n. split; [reflexivity | by left].
  - cbn [map executemany_loop].
    pose proof (execute_dml_run fs conns path INSERT_INTO_TimeSeries
                  (tolist r) tx n eq_refl) as Hex.
    destruct (exec (view path fs tx) INSERT_INTO_TimeSeries (tolist r))
      as [db'|e] eqn:Hexec.
    + destruct (IH (Some db') (S n)) as (r' & tx' & n' & Hrun & Hr).
      exists r', tx', n'. split; [|exact Hr].
      erewrite bind_Ok by exact Hex. exact Hrun.
    + exists (Raise e), (Some (view path fs tx)), n. split.
      * erewrite bind_Raise by exact Hex. reflexivity.
      * right. destruct (exec_INSERT_raises _ _ _ Hexec) as [->| ->]; auto.
Qed.

(** [executemany] on any file: as its loop, or [OperationalError] when
    the statement does not compile. *)
Lemma executemany_any (data : list PriceRecord)
    (tx : option database) (n : nat) :
  exists r tx' n',
    executemany conn INSERT_INTO_TimeSeries (map tolist data)
                (W fs tx n false)
    = (r, W fs tx' n' false)
    /\ (r = Ok tt \/ r = Raise OperationalError \/ r = Raise IntegrityError).
Proof.
  unfold executemany. change (is_dml INSERT_INTO_TimeSeries) with true.
  cbv iota. rewrite with_connection_run.
  cbn [transaction database_file total_changes]. unfold bind at 1.
  assert (Hv : match tx with
               | Some db => ret db
               | None => read_file path
               end (W fs tx n false)
               = (Ok (view path fs tx), W fs tx n false))
    by (destruct tx; reflexivity).
  rewrite Hv. unfold bind at 1. rewrite set_connection_run.
  destruct (prepare (view path fs tx) INSERT_INTO_TimeSeries) as [[]|e] eqn:Hp.
  - apply executemany_loop_any.
  - exists (Raise e), (Some (view path fs tx)), n. split; [reflexivity|].
    right. left. f_equal. revert Hp. unfold prepare, INSERT_INTO_TimeSeries.
    repeat case_match; congruence.
Qed.

(** [save_to_db] on a path that is there, whatever the file holds. *)
Lemma save_to_db_there (db : database) (data : list PriceRecord) :
  fs !! path = Some db ->
  (exists n tx,
     save_to_db data path (mkworld fs conns)
     = (Ok n,
        W (match tx with Some db' => <[path := db']> fs | None => fs end)
          None n true))
  \/ (exists n tx,
        save_to_db data path (mkworld fs conns)
        = (Raise OperationalError, W fs tx n false)).
Proof.
  intros Hfile.
  destruct (executemany_any data None 0) as (r & tx & n & Hmany & Hr).
  assert (Hstart :
            save_to_db data path (mkworld fs conns)
            = bind (try_except
                      (executemany conn INSERT_INTO_TimeSeries
                                   (map tolist data))
                      IntegrityError (ret tt))
                   (fun _ =>
                      (commit conn ;;
                       change_count <- get_total_changes conn ;;
                       cursor_close conn ;;
                       close conn ;;
                       ret change_count)%M)
                   (W fs None 0 false)).
  { unfold save_to_db.
    erewrite bind_Ok by apply os_path_exists_run.
    cbn [files]. rewrite Hfile. rewrite bool_decide_eq_true_2 by eauto.
    erewrite bind_Ok by reflexivity.
    erewrite bind_Ok by apply connect_run. rewrite Hfile.
    erewrite bind_Ok by apply cursor_run. reflexivity. }
  rewrite Hstart. clear Hstart.
  destruct Hr as [-> | [-> | ->]].
  - left. exists n, tx.
    erewrite bind_Ok by (unfold try_except; by rewrite Hmany).
    erewrite bind_Ok by apply commit_run.
    erewrite bind_Ok by apply get_total_changes_run.
    erewrite bind_Ok by reflexivity.
    erewrite bind_Ok by apply close_run.
    reflexivity.
  - right. exists n, tx.
    erewrite bind_Raise by (unfold try_except; by rewrite Hmany).
    reflexivity.
  - left. exists n, tx.
    erewrite bind_Ok by (unfold try_except; by rewrite Hmany).
    erewrite bind_Ok by apply commit_run.
    erewrite bind_Ok by apply get_total_changes_run.
    erewrite bind_Ok by reflexivity.
    erewrite bind_Ok by apply close_run.
    reflexivity.
Qed.

End AnyFile.

(** X5: in any world, whatever the file at [dbfilename] holds, and for
    any batch, the [IntegrityError] of a uniqueness violation never reaches
    the caller of [save_to_db], and the call changes no file other than
    its own. *)
Theorem save_to_db_never_raises_IntegrityError (data : list PriceRecord)
    (dbfilename : string) (w : world) :
  (save_to_db data dbfilename w).1 <> Raise IntegrityError
  /\ (forall other, other <> dbfilename ->
        files (save_to_db data dbfilename w).2 !! other = files w !! other).
Proof.
  destruct (files w !! dbfilename) as [db|] eqn:Hfile.
  - destruct w as [fs conns]. cbn [files] in *.
    destruct (save_to_db_there fs conns dbfilename db data Hfile)
      as [(n & tx & ->) | (n & tx & ->)]; unfold focus; cbn [fst snd files].
    + split; [discriminate|].
      intros other Hne. destruct tx; [by rewrite lookup_insert_ne | done].
    + split; [discriminate | done].
  - assert (Hst : stored w dbfilename [])
      by (unfold stored; by rewrite Hfile).
    destruct (save_to_db_spec_connections w dbfilename data [] Hst)
      as [opened [-> _]]. cbn [fst snd files].
    split; [discriminate|].
    intros other Hne. by rewrite lookup_insert_ne.
Qed.

(** X6: the test of [save_to_db] is that the path exists, not that the
    file holds the schema: on a file without a [TimeSeries] table every
    batch, the empty one too, raises [OperationalError] (the [INSERT] does
    not compile), nothing is written, and the connection the call opened
    is left open. *)
Theorem save_to_db_file_without_table (w : world) (dbfilename : string)
    (db : database) (data : list PriceRecord) :
  files w !! dbfilename = Some db ->
  assoc "TimeSeries" (tables db) = None ->
  exists w',
    save_to_db data dbfilename w = (Raise OperationalError, w')
    /\ files w' = files w
    /\ last (connections w')
       = Some (mkconnection dbfilename (Some db) 0 false).
Proof.
  intros Hfile Hnone. destruct w as [fs conns]. cbn [files] in *.
  assert (Hmany : executemany (length conns) INSERT_INTO_TimeSeries
                              (map tolist data)
                              (focus conns dbfilename fs None 0 false)
                  = (Raise OperationalError,
                     focus conns dbfilename fs (Some db) 0 false)).
  { unfold executemany.
    change (is_dml INSERT_INTO_TimeSeries) with true. cbv iota.
    rewrite with_connection_run.
    cbn [transaction database_file total_changes]. unfold bind at 1.
    change (read_file dbfilename (focus conns dbfilename fs None 0 false))
      with (Ok (default empty_database (fs !! dbfilename)),
            focus conns dbfilename fs None 0 false).
    rewrite Hfile. change (default empty_database (Some db)) with db.
    unfold bind at 1. rewrite set_connection_run.
    unfold INSERT_INTO_TimeSeries at 1. cbn [prepare]. rewrite Hnone.
    reflexivity. }
  eexists. split.
  - unfold save_to_db.
    erewrite bind_Ok by apply os_path_exists_run.
    cbn [files]. rewrite Hfile. rewrite bool_decide_eq_true_2 by eauto.
    erewrite bind_Ok by reflexivity.
    erewrite bind_Ok by apply connect_run. rewrite Hfile.
    erewrite bind_Ok by apply cursor_run.
    erewrite bind_Raise by (unfold try_except; by rewrite Hmany).
    reflexivity.
  - split; [reflexivity|]. unfold focus. cbn [connections].
    by rewrite last_snoc.
Qed.

Lemma save_to_db_file_without_table_witness :
  files (mkworld {["notes.txt" := empty_database]} []) !! "notes.txt"
  = Some empty_database
  /\ assoc "TimeSeries" (tables empty_database) = None
  /\ exists w',
       save_to_db [ABC_1; ABC_2] "notes.txt"
                  (mkworld {["notes.txt" := empty_database]} [])
       = (Raise OperationalError, w')
       /\ files w' = files (mkworld {["notes.txt" := empty_database]} [])
       /\ last (connections w')
          = Some (mkconnection "notes.txt" (Some empty_database) 0 false).
Proof.
  assert (H1 : files (mkworld {["notes.txt" := empty_database]} [])
               !! "notes.txt" = Some empty_database) by reflexivity.
  assert (H2 : assoc "TimeSeries" (tables empty_database) = None)
    by reflexivity.
  split; [exact H1|]. split; [exact H2|].
  exact (save_to_db_file_without_table _ "notes.txt" empty_database
           [ABC_1; ABC_2] H1 H2).
Defined.

(** ** The lines of the answer *)

(** [s.count(c)] for a character. *)
Fixpoint count_char (c : ascii) (s : string) : nat :=
  match s with
  | EmptyString => O
  | String c' s' => ((if Ascii.eqb c' c then 1 else 0) + count_char c s')%nat
  end.

(** [sep.join(pieces)] for a one-character separator. *)
Fixpoint join (sep : ascii) (pieces : list string) : string :=
  match pieces with
  | [] => EmptyString
  | [piece] => piece
  | piece :: rest => piece +:+ String sep (join sep rest)
  end.

Lemma split_not_nil (sep : ascii) (s : string) : Str.split sep s <> [].
Proof.
  destruct s as [|c s]; simpl; [discriminate|].
  destruct (Ascii.eqb c sep); [discriminate|].
  destruct (Str.split sep s); discriminate.
Qed.

Lemma split_length (sep : ascii) (s : string) :
  length (Str.split sep s) = S (count_char sep s).
Proof.
  induction s as [|c s IH]; simpl; [reflexivity|].
  destruct (Ascii.eqb c sep); simpl; [by rewrite IH|].
  pose proof (split_not_nil sep s) as Hne.
  destruct (Str.split sep s) as [|w ws]; [congruence | exact IH].
Qed.

Lemma split_no_sep (sep : ascii) (s : string) :
  Forall (fun piece => Str.contains sep piece = false) (Str.split sep s).
Proof.
  induction s as [|c s IH]; simpl.
  - by repeat constructor.
  - destruct (Ascii.eqb c sep) eqn:Hc; [by constructor|].
    destruct (Str.split sep s) as [|w ws]; [by repeat constructor; simpl; rewrite Hc|].
    apply Forall_cons in IH as [Hw Hws]. constructor; [|exact Hws].
    simpl. by rewrite Hc, Hw.
Qed.

Lemma join_split (sep : ascii) (s : string) : join sep (Str.split sep s) = s.
Proof.
  induction s as [|c s IH]; [reflexivity|]. simpl Str.split.
  pose proof (split_not_nil sep s) as Hne.
  destruct (Ascii.eqb_spec c sep) as [->|Hc].
  - destruct (Str.split sep s) as [|w ws]; [congruence|].
    change (join sep (EmptyString :: w :: ws))
      with (String sep (join sep (w :: ws))). by rewrite IH.
  - destruct (Str.split sep s) as [|w ws]; [congruence|].
    destruct ws as [|w' ws].
    + simpl in *. by rewrite IH.
    + change (join sep (String c w :: w' :: ws))
        with (String c (w +:+ String sep (join sep (w' :: ws)))).
      f_equal. exact IH.
Qed.

(** X7: which lines the parser keeps. A line gives a record only if,
    with the whitespace at its two ends removed, it holds exactly six
    commas; its fields are the texts between the commas, none holding a
    comma, and joined by commas they give the stripped line back. *)
Theorem seven_fields_is_six_commas (line : string) :
  (seven_fields line = true <-> count_char "," (Str.strip line) = 6%nat)
  /\ length (items_of line) = S (count_char "," (Str.strip line))
  /\ Forall (fun item => Str.contains "," item = false) (items_of line)
  /\ join "," (items_of line) = Str.strip line.
Proof.
  unfold seven_fields, items_of. rewrite split_length.
  split; [|split; [reflexivity | split]].
  - rewrite Nat.eqb_eq. lia.
  - apply split_no_sep.
  - apply join_split.
Qed.

(** ** The symbol of the records *)

Lemma take_length (n : nat) (s : string) : (String.length (Str.take n s) <= n)%nat.
Proof.
  revert s. induction n as [|n IH]; intros [|c s]; simpl; try lia.
  specialize (IH s). lia.
Qed.

Lemma rstrip_nul_length (s : string) :
  (String.length (Str.rstrip_nul s) <= String.length s)%nat.
Proof.
  induction s as [|c s IH]; simpl; [lia|].
  destruct (Str.rstrip_nul s) as [|c' r].
  - destruct (Ascii.eqb c "000"); simpl; lia.
  - simpl in *. lia.
Qed.

Lemma S8_length (s : string) : (String.length (S8 s) <= 8)%nat.
Proof.
  unfold S8. pose proof (rstrip_nul_length (Str.take 8 s)).
  pose proof (take_length 8 s). lia.
Qed.

Section SymbolFacts.

Variable py_float : string -> option float.
Variable np_datetime64 : string -> option datetime64.

Local Abbreviation convert := (to_schema np_datetime64).
Local Abbreviation record := (line_record py_float np_datetime64).
Local Abbreviation parse := (parse_response py_float np_datetime64).

Lemma to_schema_symbol (t : raw_tuple) (r : PriceRecord) :
  convert t = Ok r -> schema.symbol r = S8 t.1.1.1.1.1.1.1.
Proof.
  destruct t as [[[[[[[s dt] o] h] l] c] v] a]. simpl.
  destruct (np_datetime64 dt); [|discriminate]. by intros [= <-].
Qed.

Lemma line_record_symbol (symbol line : string) (r : PriceRecord) :
  record symbol line = Ok r -> schema.symbol r = S8 symbol.
Proof.
  unfold line_record.
  destruct (rmapM _ _) as [fs|e]; [|discriminate].
  destruct fs as [|o [|h [|l [|c [|v [|a [|]]]]]]]; try discriminate.
  intros H. by apply to_schema_symbol in H.
Qed.

Lemma line_record_S8 (s1 s2 line : string) :
  S8 s1 = S8 s2 -> record s1 line = record s2 line.
Proof.
  intros HS. unfold line_record.
  destruct (rmapM _ _) as [fs|e]; [|reflexivity].
  destruct fs as [|o [|h [|l [|c [|v [|a [|]]]]]]]; try reflexivity.
  simpl. by rewrite HS.
Qed.

Lemma rmapM_ext {A B} (f g : A -> result B) (l : list A) :
  (forall x, f x = g x) -> rmapM f l = rmapM g l.
Proof. intros H. induction l as [|x l IH]; simpl; [done|]. by rewrite H, IH. Qed.

(** X8: every record of the answer carries the symbol asked for cut to
    its first eight bytes (the ['S8'] field of the schema), so at most
    eight bytes long; two symbols with the same first eight bytes give the
    same records from the same lines. *)
Theorem parse_response_symbol_is_cut_to_8 (symbol : string)
    (lines : list string) (recs : list PriceRecord) :
  parse symbol lines = Ok recs ->
  Forall (fun r => schema.symbol r = S8 symbol
                   /\ (String.length (schema.symbol r) <= 8)%nat) recs
  /\ (forall other, Str.take 8 other = Str.take 8 symbol ->
        parse other lines = Ok recs).
Proof.
  rewrite parse_response_spec. intros H. split.
  - apply rmapM_Forall2 in H.
    induction H as [|line r ls rs Hr _ IH]; constructor; [|exact IH].
    apply line_record_symbol in Hr. rewrite Hr. split; [done | apply S8_length].
  - intros other Ho. rewrite parse_response_spec, <- H.
    apply rmapM_ext. intros line. apply line_record_S8.
    unfold S8. by rewrite Ho.
Qed.

End SymbolFacts.

Lemma parse_response_symbol_is_cut_to_8_witness :
  parse_response float_of_sample date_of_sample "ABCDEFGHIJ"
    [ "Date,Open,High,Low,Close,Volume,Adj Close";
      "2012-03-02,10,10.5,10,10.5,120000,10.5" ]
  = Ok [ mkPriceRecord "ABCDEFGH" (Some (datetime.mkdate 2012 3 2))
                       10 10.5 10 10.5 120000 10.5 ]
  /\ Forall (fun r => schema.symbol r = S8 "ABCDEFGHIJ"
                      /\ (String.length (schema.symbol r) <= 8)%nat)
       [ mkPriceRecord "ABCDEFGH" (Some (datetime.mkdate 2012 3 2))
                       10 10.5 10 10.5 120000 10.5 ].
Proof.
  assert (H : parse_response float_of_sample date_of_sample "ABCDEFGHIJ"
                [ "Date,Open,High,Low,Close,Volume,Adj Close";
                  "2012-03-02,10,10.5,10,10.5,120000,10.5" ]
              = Ok [ mkPriceRecord "ABCDEFGH" (Some (datetime.mkdate 2012 3 2))
                                   10 10.5 10 10.5 120000 10.5 ])
    by (vm_compute; reflexivity).
  split; [exact H|].
  exact (proj1 (parse_response_symbol_is_cut_to_8 float_of_sample
                  date_of_sample "ABCDEFGHIJ" _ _ H)).
Defined.

(** ** The request and its answer *)

Section RequestFacts.

Variable py_float : string -> option float.
Variable np_datetime64 : string -> option datetime64.
Variable strptime : string -> string -> option datetime.date.
Variable localtime : Z * Z * Z.
Variable urlopen : string -> result (list string).

Local Abbreviation prices :=
  (get_yahoo_prices py_float np_datetime64 strptime localtime urlopen).
Local Abbreviation parse := (parse_response py_float np_datetime64).

Lemma get_yahoo_prices_run (symbol period datefmt : string)
    (startdate enddate : option string) (today d1 d2 : datetime.date)
    (url : string) :
  datetime.new localtime = Ok today ->
  365 < datetime.toordinal today ->
  resolve_date strptime startdate datefmt
    (datetime.fromordinal (datetime.toordinal today - 365)) = Ok d1 ->
  resolve_date strptime enddate datefmt
    (datetime.fromordinal (datetime.toordinal today - 1)) = Ok d2 ->
  request_url symbol d1 d2 period = Ok url ->
  prices symbol startdate enddate period datefmt
  = (lines <- urlopen url ;; parse symbol lines)%result.
Proof.
  intros Hnew Hord H1 H2 Hurl.
  pose proof (new_valid _ _ Hnew) as Hv.
  pose proof (toordinal_bounds _ Hv) as Hb.
  unfold get_yahoo_prices. rewrite Hnew. cbn [rbind].
  rewrite (sub_days_run today 1) by (done || lia). cbn [rbind].
  rewrite (sub_days_run today 365) by (done || lia). cbn [rbind].
  rewrite H1. cbn [rbind]. rewrite H2. cbn [rbind].
  unfold fetch_and_parse. rewrite Hurl. reflexivity.
Qed.

(** X9: once the two dates are resolved, [get_yahoo_prices] makes one
    request, to the URL of these dates, and its outcome is that of the
    request: an error of [urlopen] is the error of the call, the lines
    answered go to the parser, and an answer with no line or with the
    header line alone gives an empty array. *)
Theorem get_yahoo_prices_follows_urlopen (symbol period datefmt : string)
    (startdate enddate : option string) (today d1 d2 : datetime.date) :
  datetime.new localtime = Ok today ->
  365 < datetime.toordinal today ->
  resolve_date strptime startdate datefmt
    (datetime.fromordinal (datetime.toordinal today - 365)) = Ok d1 ->
  resolve_date strptime enddate datefmt
    (datetime.fromordinal (datetime.toordinal today - 1)) = Ok d2 ->
  exists url,
    request_url symbol d1 d2 period = Ok url
    /\ (forall e, urlopen url = Raise e ->
          prices symbol startdate enddate period datefmt = Raise e)
    /\ (forall lines, urlopen url = Ok lines ->
          prices symbol startdate enddate period datefmt
          = parse symbol lines)
    /\ (urlopen url = Ok [] ->
          prices symbol startdate enddate period datefmt = Ok [])
    /\ (forall header, urlopen url = Ok [header] ->
          prices symbol startdate enddate period datefmt = Ok []).
Proof.
  intros Hnew Hord H1 H2.
  eexists. split; [reflexivity|].
  pose proof (get_yahoo_prices_run symbol period datefmt startdate enddate
                today d1 d2 _ Hnew Hord H1 H2 eq_refl) as Hrun.
  repeat split.
  - intros e He. rewrite Hrun, He. reflexivity.
  - intros lines Hl. rewrite Hrun, Hl. reflexivity.
  - intros Hl. rewrite Hrun, Hl. reflexivity.
  - intros header Hl. rewrite Hrun, Hl. reflexivity.
Qed.

End RequestFacts.

Lemma get_yahoo_prices_follows_urlopen_witness :
  datetime.new (2012, 3, 1) = Ok (datetime.mkdate 2012 3 1)
  /\ 365 < datetime.toordinal (datetime.mkdate 2012 3 1)
  /\ exists url,
       request_url "ABC" (datetime.mkdate 2011 3 2)
                   (datetime.mkdate 2012 2 29) "d" = Ok url
       /\ forall e, (fun _ : string => @Raise (list string) IOError) url
                    = Raise e ->
            get_yahoo_prices float_of_sample date_of_sample
              (fun _ _ => None) (2012, 3, 1) (fun _ => Raise IOError)
              "ABC" None None "d" "%Y-%m-%d"
            = Raise e.
Proof.
  assert (H1 : datetime.new (2012, 3, 1) = Ok (datetime.mkdate 2012 3 1))
    by reflexivity.
  assert (H2 : 365 < datetime.toordinal (datetime.mkdate 2012 3 1))
    by (vm_compute; reflexivity).
  split; [exact H1|]. split; [exact H2|].
  destruct (get_yahoo_prices_follows_urlopen float_of_sample date_of_sample
              (fun _ _ => None) (2012, 3, 1) (fun _ => Raise IOError)
              "ABC" "d" "%Y-%m-%d" None None (datetime.mkdate 2012 3 1)
              (datetime.mkdate 2011 3 2) (datetime.mkdate 2012 2 29)
              H1 H2 eq_refl eq_refl) as [url [Hurl [Herr _]]].
  exists url. split; [exact Hurl | exact Herr].
Defined.

(** ** More on the symbol file *)

Lemma reader_loop_raises (reader : list (list string)) (S : gset string)
    (e : exn) :
  reader_loop reader S = Raise e -> e = IndexError /\ [] ∈ reader.
Proof.
  revert S. induction reader as [|line rest IH]; cbn [reader_loop]; intros S H.
  - discriminate.
  - destruct line as [|symb fields].
    + injection H as <-. split; [reflexivity | left].
    + apply IH in H as [-> Hin]. split; [reflexivity | by right].
Qed.

Lemma reader_loop_blank (reader : list (list string)) (S : gset string) :
  [] ∈ reader -> reader_loop reader S = Raise IndexError.
Proof.
  revert S. induction reader as [|line rest IH]; cbn [reader_loop]; intros S H.
  - by apply elem_of_nil in H.
  - destruct line as [|symb fields]; [reflexivity|].
    apply elem_of_cons in H as [H|H]; [discriminate | by apply IH].
Qed.

(** X10: a row without a field (a blank line of the file) makes the
    reading of the symbol file raise [IndexError], whatever the other rows
    are, and nothing else makes it raise. *)
Theorem populate_db_symbolset_blank_line (reader : list (list string)) :
  (populate_db_symbolset reader = Raise IndexError <-> [] ∈ reader)
  /\ (forall e, populate_db_symbolset reader = Raise e -> e = IndexError).
Proof.
  unfold populate_db_symbolset. split; [split|].
  - intros H. by apply reader_loop_raises in H as [_ H].
  - apply reader_loop_blank.
  - intros e H. by apply reader_loop_raises in H as [H _].
Qed.

Lemma replace_absent (c new : ascii) (s : string) :
  Str.contains c s = false -> Str.replace c new s = s.
Proof.
  induction s as [|x s IH]; simpl; [reflexivity|]. intros H.
  apply orb_false_elim in H as [Hx Hs]. by rewrite Hx, IH.
Qed.

Lemma replace_loop_clean (itms : list ascii) (symb : string)
    (S : gset string) :
  (forall c, c ∈ itms -> Str.contains c symb = false) ->
  replace_loop itms symb S
  = (symb, match itms with [] => S | _ :: _ => {[Str.strip symb]} ∪ S end).
Proof.
  revert S. induction itms as [|itm rest IH]; intros S Hclean.
  - reflexivity.
  - cbn [replace_loop].
    rewrite replace_absent by (apply Hclean; left).
    rewrite IH by (intros c Hc; apply Hclean; by right).
    f_equal. destruct rest; [reflexivity|].
    by rewrite (assoc_L (∪)), (idemp_L (∪)).
Qed.

Lemma reader_loop_clean (reader : list (list string)) (S : gset string) :
  Forall (fun line => exists symb fields,
            line = symb :: fields
            /\ forall c, c ∈ badchars -> Str.contains c symb = false)
         reader ->
  reader_loop reader S
  = Ok (list_to_set (map (fun line => Str.strip (List.hd EmptyString line))
                         reader) ∪ S).
Proof.
  intros H. revert S.
  induction H as [|line rest (symb & fields & -> & Hclean) _ IH]; intros S.
  - cbn [reader_loop map list_to_set]. by rewrite (left_id_L ∅ (∪)).
  - cbn [reader_loop]. rewrite (replace_loop_clean badchars symb S Hclean).
    cbn [snd badchars]. rewrite IH. f_equal.
    cbn [map list_to_set List.hd].
    rewrite (comm_L (∪) {[Str.strip symb]} (list_to_set _)).
    by rewrite (assoc_L (∪)).
Qed.

(** X11: when no first field of the file holds one of [/ : ^ % \\], the
    symbol set is the set of the first fields with the whitespace at their
    ends removed, one element for each distinct value and nothing else. *)
Theorem populate_db_symbolset_clean_file (reader : list (list string)) :
  Forall (fun line => exists symb fields,
            line = symb :: fields
            /\ forall c, c ∈ badchars -> Str.contains c symb = false)
         reader ->
  populate_db_symbolset reader
  = Ok (list_to_set (map (fun line => Str.strip (List.hd EmptyString line))
                         reader)).
Proof.
  intros H. unfold populate_db_symbolset. rewrite (reader_loop_clean _ _ H).
  by rewrite (right_id_L ∅ (∪)).
Qed.

Lemma populate_db_symbolset_clean_file_witness :
  Forall (fun line => exists symb fields,
            line = symb :: fields
            /\ forall c, c ∈ badchars -> Str.contains c symb = false)
         [["IBM"; "International Business Machines"]; [" MSFT "]; ["IBM"]]
  /\ populate_db_symbolset
       [["IBM"; "International Business Machines"]; [" MSFT "]; ["IBM"]]
     = Ok {["IBM"; "MSFT"]}.
Proof.
  assert (H : Forall (fun line => exists symb fields,
                        line = symb :: fields
                        /\ forall c, c ∈ badchars ->
                             Str.contains c symb = false)
                [["IBM"; "International Business Machines"]; [" MSFT "];
                 ["IBM"]]).
  { repeat constructor; eexists _, _; (split; [reflexivity|]);
      intros c Hc; unfold badchars in Hc;
      rewrite !elem_of_cons, elem_of_nil in Hc;
      destruct Hc as [->|[->|[->|[->|[->|[]]]]]]; reflexivity. }
  split; [exact H|].
  rewrite (populate_db_symbolset_clean_file _ H). vm_compute. reflexivity.
Defined.

Lemma lstrip_head (s : string) (c : ascii) (t : string) :
  Str.lstrip s = String c t -> Ascii.is_space c = false.
Proof.
  induction s as [|x s IH]; simpl; [discriminate|].
  destruct (Ascii.is_space x) eqn:Hx; [exact IH|].
  intros [= <- <-]. exact Hx.
Qed.

Lemma lstrip_no_space (c : ascii) (t : string) :
  Ascii.is_space c = false -> Str.lstrip (String c t) = String c t.
Proof. intros H. simpl. by rewrite H. Qed.

Lemma rstrip_idem (s : string) : Str.rstrip (Str.rstrip s) = Str.rstrip s.
Proof.
  induction s as [|c s IH]; [reflexivity|]. simpl Str.rstrip at 2 3.
  destruct (Str.rstrip s) as [|c' r] eqn:Hr.
  - destruct (Ascii.is_space c) eqn:Hc; [reflexivity|]. simpl. by rewrite Hc.
  - change (Str.rstrip (String c (String c' r)))
      with (match Str.rstrip (String c' r) with
            | EmptyString => if Ascii.is_space c then EmptyString
                             else String c EmptyString
            | r' => String c r'
            end).
    by rewrite IH.
Qed.

Lemma rstrip_keeps_head (c : ascii) (t : string) :
  Ascii.is_space c = false ->
  exists t', Str.rstrip (String c t) = String c t'.
Proof.
  intros Hc. simpl. destruct (Str.rstrip t); [rewrite Hc|]; eauto.
Qed.

Lemma strip_idem (s : string) : Str.strip (Str.strip s) = Str.strip s.
Proof.
  unfold Str.strip. destruct (Str.lstrip s) as [|c t] eqn:Hl; [reflexivity|].
  pose proof (lstrip_head _ _ _ Hl) as Hc.
  destruct (rstrip_keeps_head c t Hc) as [t' Ht'].
  rewrite Ht', (lstrip_no_space c t' Hc), <- Ht'. apply rstrip_idem.
Qed.

(** X12: sanitizing is idempotent. The value the loop adds last for a
    field, put through the loop again, comes out as it is and is the only
    value added, so a symbol file written from the cleaned symbols reads
    back as the same symbols. *)
Theorem replace_loop_idempotent (symb : string) (symbolset : gset string) :
  let value := Str.strip (Str.map dash_if_bad symb) in
  replace_loop badchars value symbolset = (value, {[value]} ∪ symbolset)
  /\ populate_db_symbolset [[value]] = Ok {[value]}.
Proof.
  intros value.
  assert (Hclean : forall c, c ∈ badchars -> Str.contains c value = false).
  { intros c Hc. apply contains_strip, contains_map.
    intros x. by apply dash_if_bad_not_bad. }
  assert (Hstrip : Str.strip value = value) by apply strip_idem.
  split.
  - rewrite (replace_loop_clean badchars value symbolset Hclean).
    cbn [badchars]. by rewrite Hstrip.
  - unfold populate_db_symbolset. cbn [reader_loop].
    rewrite (replace_loop_clean badchars value ∅ Hclean).
    cbn [badchars snd]. by rewrite Hstrip, (right_id_L ∅ (∪)).
Qed.

(** ** The driver: [populate_db] *)

(** A computation that only looks: its result, the world as it is. *)
Definition lift {A} (r : result A) : M A := fun w => (r, w).

Section Driver.

(** Besides what [get_yahoo_prices] takes from its environment:
    [csv.reader(open(path))] read to its end, and the order in which
    [list(s)] walks a set. *)
Variable py_float : string -> option float.
Variable np_datetime64 : string -> option datetime64.
Variable strptime : string -> string -> option datetime.date.
Variable localtime : Z * Z * Z.
Variable urlopen : string -> result (list string).
Variable csv_reader : string -> result (list (list string)).
Variable list_of_set : gset string -> list string.

(** Lines 175-181: the loop over the symbols, with the two counters. The
    period and the date format are the defaults of [get_yahoo_prices]; the
    counter [count] of the source is written and never read, and the
    progress line printed for each symbol is not part of what is
    returned. *)
Fixpoint populate_loop (symbollist : list string)
    (startdate enddate : option string) (dbfilename : string)
    (save_count rec_count : nat) : M (nat * nat) :=
  match symbollist with
  | [] => ret (save_count, rec_count)
  | symbol :: rest =>
      (data <- lift (get_yahoo_prices py_float np_datetime64 strptime
                       localtime urlopen symbol startdate enddate
                       "d" "%Y-%m-%d") ;;
       num_saved <- save_to_db data dbfilename ;;
       match num_saved with
       | O => populate_loop rest startdate enddate dbfilename
                            save_count rec_count
       | S _ => populate_loop rest startdate enddate dbfilename
                              (S save_count) (rec_count + num_saved)
       end)%M
  end.

(** [populate_db]: [symbols] is the path of a symbol file ([inl]) or the
    symbols themselves ([inr]). What is returned here is what the last
    line prints: the records saved, the symbols with a record saved, and
    the number of symbols. *)
Definition populate_db (symbols : string + list string)
    (startdate enddate : option string) (dbfilename : string)
    : M (nat * nat * nat) :=
  (symbolset <- match symbols with
                | inl path =>
                    lift (reader <- csv_reader path ;;
                          populate_db_symbolset reader)%result
                | inr symbols => ret (list_to_set symbols)
                end ;;
   counts <- populate_loop (list_of_set symbolset) startdate enddate
                           dbfilename 0 0 ;;
   ret (counts.2, counts.1, size symbolset))%M.

End Driver.

Lemma accepted_nil_more (T more data : list PriceRecord) :
  accepted T data = [] -> accepted (T ++ more) data = [].
Proof.
  destruct data as [|r rest]; [reflexivity|]. simpl.
  destruct (has_key T r) eqn:Hk; [|discriminate]. intros _.
  by rewrite has_key_app, Hk.
Qed.

Section DriverFacts.

Variable py_float : string -> option float.
Variable np_datetime64 : string -> option datetime64.
Variable strptime : string -> string -> option datetime.date.
Variable localtime : Z * Z * Z.
Variable urlopen : string -> result (list string).
Variable csv_reader : string -> result (list (list string)).
Variable list_of_set : gset string -> list string.
Variable startdate enddate : option string.
Variable dbfilename : string.

Local Abbreviation fetch symbol :=
  (get_yahoo_prices py_float np_datetime64 strptime localtime urlopen
     symbol startdate enddate "d" "%Y-%m-%d").
Local Abbreviation loop symbollist :=
  (populate_loop py_float np_datetime64 strptime localtime urlopen
     symbollist startdate enddate dbfilename).
Local Abbreviation populate symbols :=
  (populate_db py_float np_datetime64 strptime localtime urlopen csv_reader
     list_of_set symbols startdate enddate dbfilename).

(** One turn of the loop. *)
Lemma loop_cons (symbol : string) (rest : list string) (a b : nat)
    (w : world) :
  loop (symbol :: rest) a b w
  = match fetch symbol with
    | Raise e => (Raise e, w)
    | Ok data =>
        match save_to_db data dbfilename w with
        | (Raise e, w') => (Raise e, w')
        | (Ok O, w') => loop rest a b w'
        | (Ok (S n), w') => loop rest (S a) (b + S n)%nat w'
        end
    end.
Proof.
  cbn [populate_loop]. unfold bind at 1, lift.
  destruct (fetch symbol) as [data|e]; [|reflexivity].
  unfold bind. destruct (save_to_db data dbfilename w) as [[[|n]|e] w'];
    reflexivity.
Qed.

(** The loop moves the world by calls of [save_to_db] only. *)
Lemma loop_steps (symbollist : list string) (a b : nat) (w : world) :
  rtc step w (loop symbollist a b w).2.
Proof.
  revert a b w. induction symbollist as [|symbol rest IH]; intros a b w.
  - apply rtc_refl.
  - rewrite loop_cons. destruct (fetch symbol) as [data|e]; [|apply rtc_refl].
    pose proof (step_save_to_db data dbfilename w) as Hstep.
    destruct (save_to_db data dbfilename w) as [[[|n]|e] w'];
      cbn [snd] in *.
    + eapply rtc_l; [exact Hstep | apply IH].
    + eapply rtc_l; [exact Hstep | apply IH].
    + by apply rtc_once.
Qed.

Lemma populate_steps (symbols : string + list string) (w : world) :
  rtc step w (populate symbols w).2.
Proof.
  unfold populate_db. unfold bind at 1.
  set (first := match symbols with inl _ => _ | inr _ => _ end).
  assert (Hfirst : (first w).2 = w) by (unfold first; by destruct symbols).
  destruct (first w) as [[symbolset|e] w0]; cbn [snd] in *; subst w0;
    [|apply rtc_refl].
  unfold bind.
  pose proof (loop_steps (list_of_set symbolset) 0 0 w) as Hsteps.
  destruct (loop (list_of_set symbolset) 0 0 w) as [[counts|e] w'];
    exact Hsteps.
Qed.

(** X13: whatever the symbols and the answers of the server, and whether
    [populate_db] returns or raises, the store it leaves is one that calls
    of [save_to_db] lead to: every file is a database of the source in
    which no two rows of [TimeSeries] that have a date share a (symbol,
    date). *)
Theorem populate_db_keeps_store_unique (symbols : string + list string)
    (w : world) :
  reachable w ->
  reachable (populate symbols w).2
  /\ unique_store (populate symbols w).2.
Proof.
  intros Hreach.
  assert (H : reachable (populate symbols w).2).
  { unfold reachable in *. etransitivity; [exact Hreach|].
    apply populate_steps. }
  split; [exact H | by apply reachable_unique_store].
Qed.

(** The loop over [l1 ++ l2] is the loop over [l1] and then, with its
    counters, the loop over [l2]. *)
Lemma loop_app (l1 l2 : list string) (a b : nat) (w : world) :
  loop (l1 ++ l2) a b w
  = match loop l1 a b w with
    | (Ok (a', b'), w') => loop l2 a' b' w'
    | (Raise e, w') => (Raise e, w')
    end.
Proof.
  revert a b w. induction l1 as [|symbol rest IH]; intros a b w.
  - reflexivity.
  - cbn [app]. rewrite !loop_cons.
    destruct (fetch symbol) as [data|e]; [|reflexivity].
    destruct (save_to_db data dbfilename w) as [[[|n]|e] w'];
      [apply IH | apply IH | reflexivity].
Qed.

(** X14: a symbol whose request fails ends the loop with that error, and
    the store is then as the symbols before it left it: what they saved
    stays saved, the symbols after it are not asked for. *)
Theorem populate_loop_aborts_at_failed_request (before after : list string)
    (symbol : string) (e : exn) (a b a' b' : nat) (w w' : world) :
  loop before a b w = (Ok (a', b'), w') ->
  fetch symbol = Raise e ->
  loop (before ++ symbol :: after) a b w = (Raise e, w').
Proof.
  intros Hbefore Hfetch. rewrite loop_app, Hbefore, loop_cons, Hfetch.
  reflexivity.
Qed.

End DriverFacts.

Section DriverCounts.

Variable py_float : string -> option float.
Variable np_datetime64 : string -> option datetime64.
Variable strptime : string -> string -> option datetime.date.
Variable localtime : Z * Z * Z.
Variable urlopen : string -> result (list string).
Variable csv_reader : string -> result (list (list string)).
Variable list_of_set : gset string -> list string.
Variable startdate enddate : option string.
Variable dbfilename : string.

Local Abbreviation fetch symbol :=
  (get_yahoo_prices py_float np_datetime64 strptime localtime urlopen
     symbol startdate enddate "d" "%Y-%m-%d").
Local Abbreviation loop symbollist :=
  (populate_loop py_float np_datetime64 strptime localtime urlopen
     symbollist startdate enddate dbfilename).
Local Abbreviation populate symbols :=
  (populate_db py_float np_datetime64 strptime localtime urlopen csv_reader
     list_of_set symbols startdate enddate dbfilename).

(** The symbol set of lines 155-171, which does not look at the store. *)
Definition symbolset_of (symbols : string + list string)
    : result (gset string) :=
  match symbols with
  | inl path =>
      (reader <- csv_reader path ;; populate_db_symbolset reader)%result
  | inr symbols => Ok (list_to_set symbols)
  end.

Lemma populate_run (symbols : string + list string) (w : world) :
  populate symbols w
  = match symbolset_of symbols with
    | Raise e => (Raise e, w)
    | Ok symbolset =>
        match loop (list_of_set symbolset) 0%nat 0%nat w with
        | (Ok counts, w') => (Ok (counts.2, counts.1, size symbolset), w')
        | (Raise e, w') => (Raise e, w')
        end
    end.
Proof.
  unfold populate_db, symbolset_of. unfold bind at 1.
  destruct symbols as [path|symbols]; unfold lift, ret.
  - destruct (rbind _ _) as [symbolset|e]; [|reflexivity].
    unfold bind. by destruct (populate_loop _ _ _ _ _ _ _ _ _ _ _ w) as [[?|?] ?].
  - unfold bind. by destruct (populate_loop _ _ _ _ _ _ _ _ _ _ _ w) as [[?|?] ?].
Qed.

(** A run of the loop that returns, on a store of the source: what it
    added, what it counted, and that every batch it saved whose first
    record has a date would now be refused at its first row. *)
Lemma loop_first (symbollist : list string) (a b a' b' : nat)
    (w w1 : world) (recs : list PriceRecord) :
  stored w dbfilename recs ->
  loop symbollist a b w = (Ok (a', b'), w1) ->
  exists added,
    stored w1 dbfilename (recs ++ added)
    /\ (is_Some (files w !! dbfilename) \/ symbollist <> [] ->
        is_Some (files w1 !! dbfilename))
    /\ Forall (fun symbol => exists data,
                 fetch symbol = Ok data
                 /\ ((forall r, head data = Some r -> dated r) ->
                     accepted (recs ++ added) data = [])) symbollist
    /\ b' = (b + length added)%nat
    /\ (a <= a')%nat /\ (a' <= a + length symbollist)%nat
    /\ (a' - a <= length added)%nat.
Proof.
  revert a b a' b' w w1 recs.
  induction symbollist as [|symbol rest IH];
    intros a b a' b' w w1 recs Hst Hrun.
  - injection Hrun as <- <- <-. exists []. rewrite app_nil_r.
    split; [exact Hst|]. split; [intros [H|H]; [exact H | congruence]|].
    split; [constructor|]. simpl. lia.
  - rewrite loop_cons in Hrun.
    destruct (fetch symbol) as [data|e] eqn:Hfetch; [|discriminate].
    destruct (save_to_db_spec_connections w dbfilename data recs Hst)
      as [opened [Hsave _]].
    rewrite Hsave in Hrun.
    set (acc := accepted recs data) in *.
    set (wa := mkworld _ (connections w ++ opened)) in *.
    assert (Hfa : files wa !! dbfilename = Some (TimeSeries_db (recs ++ acc)))
      by (unfold wa; cbn [files]; by rewrite lookup_insert_eq).
    assert (Hsta : stored wa dbfilename (recs ++ acc))
      by (unfold stored; by rewrite Hfa).
    assert (Hcount : exists a0 b0,
              loop rest a0 b0 wa = (Ok (a', b'), w1)
              /\ b0 = (b + length acc)%nat
              /\ (a <= a0 <= S a)%nat /\ (a0 - a <= length acc)%nat).
    { destruct (length acc) as [|n] eqn:Hlen.
      - exists a, b. split; [exact Hrun|]. lia.
      - exists (S a), (b + S n)%nat. split; [exact Hrun|]. lia. }
    destruct Hcount as (a0 & b0 & Hrest & Hb0 & Ha0 & Ha0').
    destruct (IH _ _ _ _ _ _ _ Hsta Hrest)
      as (added & Hst1 & Hsome & Hall & Hb' & Hle1 & Hle2 & Hle3).
    exists (acc ++ added). rewrite (assoc_L (++)).
    split; [exact Hst1|].
    split; [intros _; apply Hsome; left; rewrite Hfa; eauto|].
    split.
    + constructor; [|exact Hall].
      exists data. split; [exact Hfetch|]. intros Hd.
      by apply accepted_nil_more, accepted_again.
    + rewrite length_app. cbn [length]. lia.
Qed.

(** A run of the loop on a store in which every batch is refused at its
    first row: nothing is counted, no file changes. *)
Lemma loop_second (symbollist : list string) (a b : nat) (w : world)
    (T : list PriceRecord) :
  files w !! dbfilename = Some (TimeSeries_db T) ->
  Forall (fun symbol => exists data,
            fetch symbol = Ok data /\ accepted T data = []) symbollist ->
  exists w', loop symbollist a b w = (Ok (a, b), w') /\ files w' = files w.
Proof.
  intros Hf Hall. revert w Hf.
  induction Hall as [|symbol rest (data & Hfetch & Hacc) _ IH]; intros w Hf.
  - eexists. split; reflexivity.
  - rewrite loop_cons, Hfetch.
    assert (Hst : stored w dbfilename T) by (unfold stored; by rewrite Hf).
    destruct (save_to_db_spec_connections w dbfilename data T Hst)
      as [opened [Hsave _]].
    rewrite Hacc, app_nil_r in Hsave. rewrite (insert_id _ _ _ Hf) in Hsave.
    rewrite Hsave. cbn [length].
    destruct (IH (mkworld (files w) (connections w ++ opened)) Hf)
      as [w' [Hrun Hfiles]].
    exists w'. split; [exact Hrun | exact Hfiles].
Qed.

(** X15: when [populate_db] returns, on a store of the source, the first
    number it reports is the number of rows the run added to [TimeSeries]
    (the rows that were there are still there, in place), the second, the
    symbols with a row saved, is at most the number of symbols and at
    most the number of rows. *)
Theorem populate_db_counts (symbols : string + list string) (w : world)
    (recs : list PriceRecord) (rec_count save_count n : nat) :
  (forall s, length (list_of_set s) = size s) ->
  stored w dbfilename recs ->
  (populate symbols w).1 = Ok (rec_count, save_count, n) ->
  exists added,
    stored (populate symbols w).2 dbfilename (recs ++ added)
    /\ length added = rec_count
    /\ (save_count <= n)%nat /\ (save_count <= rec_count)%nat.
Proof.
  intros Hlen Hst. rewrite populate_run.
  destruct (symbolset_of symbols) as [symbolset|e]; [|discriminate].
  destruct (loop (list_of_set symbolset) 0%nat 0%nat w)
    as [[[a' b']|e] w1] eqn:Hrun; [|discriminate].
  cbn [fst snd]. intros [= <- <- <-].
  destruct (loop_first _ _ _ _ _ _ _ _ Hst Hrun)
    as (added & Hst1 & _ & _ & -> & _ & Hle2 & Hle3).
  exists added. split; [exact Hst1|]. rewrite Hlen in Hle2. lia.
Qed.

(** X16: [populate_db] run again, with the same answers of the server,
    on the store its first run left, when no batch that
    [get_yahoo_prices] returns begins with a record whose date is NaT: it
    reports 0 records for 0 symbols and changes no file. *)
Theorem populate_db_second_run_saves_nothing
    (symbols : string + list string) (w : world) (recs : list PriceRecord)
    (rec_count save_count n : nat) :
  (forall symbol data r,
     fetch symbol = Ok data -> head data = Some r -> dated r) ->
  stored w dbfilename recs ->
  (populate symbols w).1 = Ok (rec_count, save_count, n) ->
  (populate symbols (populate symbols w).2).1 = Ok (0%nat, 0%nat, n)
  /\ files (populate symbols (populate symbols w).2).2
     = files (populate symbols w).2.
Proof.
  intros Hdated Hst. rewrite !populate_run.
  destruct (symbolset_of symbols) as [symbolset|e]; [|discriminate].
  destruct (loop (list_of_set symbolset) 0%nat 0%nat w)
    as [[[a' b']|e] w1] eqn:Hrun; [|discriminate].
  cbn [fst snd]. intros [= <- <- <-].
  destruct (loop_first _ _ _ _ _ _ _ _ Hst Hrun)
    as (added & Hst1 & Hsome & Hall & _).
  assert (Hall' : Forall (fun symbol => exists data,
                    fetch symbol = Ok data
                    /\ accepted (recs ++ added) data = [])
                    (list_of_set symbolset)).
  { eapply Forall_impl; [exact Hall|].
    intros symbol (data & Hfetch & Hacc). exists data.
    split; [exact Hfetch|]. apply Hacc. intros r.
    exact (Hdated symbol data r Hfetch). }
  clear Hall.
  destruct (list_of_set symbolset) as [|symbol rest] eqn:Hlist.
  - split; reflexivity.
  - destruct Hsome as [db Hdb]; [by right|].
    unfold stored in Hst1. rewrite Hdb in Hst1. subst db.
    destruct (loop_second (symbol :: rest) 0 0 w1 _ Hdb Hall')
      as [w2 [Hrun2 Hfiles]].
    rewrite Hrun2. split; [reflexivity | exact Hfiles].
Qed.

End DriverCounts.

(** ** The driver at concrete inputs *)

(** A server that answers every request with the same two days. *)
Definition sample_answer : list string :=
  [ "Date,Open,High,Low,Close,Volume,Adj Close" +:+ newline;
    "2012-03-02,10,10.5,10,10.5,120000,10.5" +:+ newline;
    "2012-03-01,10,10,10,10,120000,10" +:+ newline ].

Definition sample_populate (urlopen : string -> result (list string))
    (symbols : string + list string) : M (nat * nat * nat) :=
  populate_db float_of_sample date_of_sample (fun _ _ => None) (2012, 3, 5)
    urlopen (fun _ => Raise IOError) elements symbols None None "stocks.db".

Example populate_db_sample :
  (sample_populate (fun _ => Ok sample_answer) (inr ["ABC"; "ABC"]) no_files).1
  = Ok (2%nat, 1%nat, 1%nat).
Proof. vm_compute. reflexivity. Qed.

Lemma populate_db_keeps_store_unique_witness :
  reachable no_files
  /\ reachable
       (sample_populate (fun _ => Ok sample_answer) (inr ["ABC"; "XYZ"])
          no_files).2.
Proof.
  assert (H : reachable no_files) by apply rtc_refl.
  split; [exact H|].
  exact (proj1 (populate_db_keeps_store_unique float_of_sample date_of_sample
                  (fun _ _ => None) (2012, 3, 5) (fun _ => Ok sample_answer)
                  (fun _ => Raise IOError) elements None None "stocks.db"
                  (inr ["ABC"; "XYZ"]) no_files H)).
Defined.

(** A server that knows the symbol ["ABC"] only: it answers the request
    of the year before 2012-03-05 for that symbol and fails on any other
    request. *)
Definition ABC_only (url : string) : result (list string) :=
  match request_url "ABC" (datetime.mkdate 2011 3 6)
                    (datetime.mkdate 2012 3 4) "d" with
  | Ok abc => if String.eqb url abc then Ok sample_answer else Raise IOError
  | Raise e => Raise e
  end.

(** The store after the loop has saved the two days of ["ABC"]. *)
Definition ABC_saved : world :=
  (populate_loop float_of_sample date_of_sample (fun _ _ => None) (2012, 3, 5)
     ABC_only ["ABC"] None None "stocks.db" 0 0 no_files).2.

Lemma populate_loop_aborts_at_failed_request_witness :
  populate_loop float_of_sample date_of_sample (fun _ _ => None) (2012, 3, 5)
    ABC_only ["ABC"] None None "stocks.db" 0 0 no_files
  = (Ok (1%nat, 2%nat), ABC_saved)
  /\ get_yahoo_prices float_of_sample date_of_sample (fun _ _ => None)
       (2012, 3, 5) ABC_only "XYZ" None None "d" "%Y-%m-%d"
     = Raise IOError
  /\ TimeSeries_count ABC_saved "stocks.db" = Some 2%nat
  /\ populate_loop float_of_sample date_of_sample (fun _ _ => None)
       (2012, 3, 5) ABC_only (["ABC"] ++ "XYZ" :: ["DEF"])
       None None "stocks.db" 0 0 no_files
     = (Raise IOError, ABC_saved).
Proof.
  assert (H1 : populate_loop float_of_sample date_of_sample (fun _ _ => None)
                 (2012, 3, 5) ABC_only ["ABC"] None None
                 "stocks.db" 0 0 no_files
               = (Ok (1%nat, 2%nat), ABC_saved)) by (vm_compute; reflexivity).
  assert (H2 : get_yahoo_prices float_of_sample date_of_sample
                 (fun _ _ => None) (2012, 3, 5) ABC_only
                 "XYZ" None None "d" "%Y-%m-%d"
               = Raise IOError) by (vm_compute; reflexivity).
  split; [exact H1|]. split; [exact H2|].
  split; [vm_compute; reflexivity|].
  exact (populate_loop_aborts_at_failed_request float_of_sample
           date_of_sample (fun _ _ => None) (2012, 3, 5)
           ABC_only None None "stocks.db" ["ABC"] ["DEF"] "XYZ"
           IOError 0 0 1 2 no_files ABC_saved H1 H2).
Defined.

Lemma populate_db_counts_witness :
  (forall s : gset string, length (elements s) = size s)
  /\ stored no_files "stocks.db" []
  /\ (sample_populate (fun _ => Ok sample_answer) (inr ["ABC"; "ABC"])
        no_files).1 = Ok (2%nat, 1%nat, 1%nat)
  /\ exists added,
       stored (sample_populate (fun _ => Ok sample_answer)
                 (inr ["ABC"; "ABC"]) no_files).2 "stocks.db" ([] ++ added)
       /\ length added = 2%nat /\ (1 <= 1)%nat /\ (1 <= 2)%nat.
Proof.
  assert (H1 : forall s : gset string, length (elements s) = size s)
    by (intros s; reflexivity).
  assert (H2 : stored no_files "stocks.db" []) by reflexivity.
  assert (H3 : (sample_populate (fun _ => Ok sample_answer)
                  (inr ["ABC"; "ABC"]) no_files).1
               = Ok (2%nat, 1%nat, 1%nat)) by (vm_compute; reflexivity).
  split; [exact H1|]. split; [exact H2|]. split; [exact H3|].
  exact (populate_db_counts float_of_sample date_of_sample (fun _ _ => None)
           (2012, 3, 5) (fun _ => Ok sample_answer) (fun _ => Raise IOError)
           elements None None "stocks.db" (inr ["ABC"; "ABC"]) no_files []
           2 1 1 H1 H2 H3).
Defined.

Lemma populate_db_second_run_saves_nothing_witness :
  (forall symbol data r,
     get_yahoo_prices float_of_sample date_of_sample (fun _ _ => None)
       (2012, 3, 5) (fun _ => Ok sample_answer) symbol None None
       "d" "%Y-%m-%d" = Ok data ->
     head data = Some r -> dated r)
  /\ stored no_files "stocks.db" []
  /\ (sample_populate (fun _ => Ok sample_answer) (inr ["ABC"; "ABC"])
        no_files).1 = Ok (2%nat, 1%nat, 1%nat)
  /\ (sample_populate (fun _ => Ok sample_answer) (inr ["ABC"; "ABC"])
        (sample_populate (fun _ => Ok sample_answer) (inr ["ABC"; "ABC"])
           no_files).2).1
     = Ok (0%nat, 0%nat, 1%nat).
Proof.
  assert (H1 : forall symbol data r,
             get_yahoo_prices float_of_sample date_of_sample (fun _ _ => None)
               (2012, 3, 5) (fun _ => Ok sample_answer) symbol None None
               "d" "%Y-%m-%d" = Ok data ->
             head data = Some r -> dated r).
  { intros symbol data r Hfetch. vm_compute in Hfetch.
    injection Hfetch as <-. intros [= <-]. by eexists. }
  assert (H2 : stored no_files "stocks.db" []) by reflexivity.
  assert (H3 : (sample_populate (fun _ => Ok sample_answer)
                  (inr ["ABC"; "ABC"]) no_files).1
               = Ok (2%nat, 1%nat, 1%nat)) by (vm_compute; reflexivity).
  split; [exact H1|]. split; [exact H2|]. split; [exact H3|].
  exact (proj1 (populate_db_second_run_saves_nothing float_of_sample
                  date_of_sample (fun _ _ => None) (2012, 3, 5)
                  (fun _ => Ok sample_answer) (fun _ => Raise IOError)
                  elements None None "stocks.db" (inr ["ABC"; "ABC"])
                  no_files [] 2 1 1 H1 H2 H3)).
Defined.
